(** * MCP tool integration layer: client cache, schema translator, tool catalog

    A shallow embedding of the TypeScript sources
      - [databricks-mcp-client.ts]  (class [DatabricksMCPClient])
      - [mcp-tool-provider.ts]      (class [McpToolProvider])
      - [config/mcp-connections.ts]
    followed by the theorems about them.

    Conventions of the embedding.
    - Run-time values are the values [JSON.parse] can produce, plus
      [undefined]; numbers are integers of magnitude below 10^21, the
      ones a template literal prints in decimal (no claim below depends on
      a fractional or a larger number).  A character of a [string] stands for one UTF-16
      code unit below 256.
    - An [async] method is a state transformer over the two singletons and
      the outside world; [await] is sequencing.  A rejected promise and a
      thrown exception are the same [Throw].
    - [console.log] and friends only print.  The expressions inside a log
      line are evaluated all the same; the one that can raise on a value
      the program may hold, the conversion of [tools.length] to a string
      in [cacheTools], is part of the embedding.  The bodies handed to
      [JSON.stringify] are values of [JSON.parse], which it accepts, and
      the tool name logged by [callTool] is a string by the signature of
      the method. *)

From Stdlib Require Import ZArith NArith String Ascii List Bool Lia.
From stdpp Require Import base option gmap strings list fin_maps pretty.

Set Warnings "-register-all".

Local Open Scope string_scope.
Local Open Scope list_scope.

(** ** JavaScript values and exceptions *)

Inductive jsval : Type :=
  | JUndefined
  | JNull
  | JBool (b : bool)
  | JNum (n : Z)
  | JStr (s : string)
  | JArr (elems : list jsval)
  | JObj (fields : list (string * jsval)).

(** A thrown value: an instance of [Error] (with its [name] and [message]),
    or anything else. *)
Inductive exn : Type :=
  | JsError (name message : string)
  | JsThrown (v : jsval).

Inductive outcome (A : Type) : Type :=
  | Ret (a : A)
  | Throw (e : exn).
Arguments Ret {A} a.
Arguments Throw {A} e.

Definition obind {A B} (m : outcome A) (k : A -> outcome B) : outcome B :=
  match m with
  | Ret a => k a
  | Throw e => Throw e
  end.

Notation "x <~ m ;; k" := (obind m (fun x => k))
  (at level 100, m at next level, right associativity).

Definition TypeError (message : string) : exn := JsError "TypeError" message.

Module JS.

(** [!!v] *)
Definition truthy (v : jsval) : bool :=
  match v with
  | JUndefined | JNull => false
  | JBool b => b
  | JNum n => negb (Z.eqb n 0)
  | JStr s => negb (String.eqb s EmptyString)
  | JArr _ | JObj _ => true
  end.

(** [a || b] *)
Definition or (a b : jsval) : jsval := if truthy a then a else b.

Fixpoint assoc {A} (k : string) (l : list (string * A)) : option A :=
  match l with
  | [] => None
  | (k', v) :: r => if String.eqb k k' then Some v else assoc k r
  end.

(** [k in o] for own properties *)
Definition has_key {A} (k : string) (l : list (string * A)) : bool :=
  match assoc k l with Some _ => true | None => false end.

(** [v.k] for the property names this program reads ([type],
    [properties], [required], [items], [tools], [name], [description],
    [inputSchema], [result], [content], [url]); none of them is defined
    on the prototype of a string, a number, a boolean or an array, so
    only an object can answer, and [null] and [undefined] raise. *)
Definition get (v : jsval) (k : string) : outcome jsval :=
  match v with
  | JUndefined =>
      Throw (TypeError ("Cannot read properties of undefined (reading '" +:+ k +:+ "')"))
  | JNull =>
      Throw (TypeError ("Cannot read properties of null (reading '" +:+ k +:+ "')"))
  | JObj fields =>
      Ret (match assoc k fields with Some x => x | None => JUndefined end)
  | _ => Ret JUndefined
  end.

(** [o[k] = v] on an object and [m.set(k, v)] on a [Map]: an existing key
    keeps its place, a new one goes last.  (An object lists keys that are
    array indices first; nothing below depends on the order of the keys of
    an object, and no key of the tool [Map] is an index.) *)
Fixpoint set {A} (k : string) (v : A) (l : list (string * A)) : list (string * A) :=
  match l with
  | [] => [(k, v)]
  | (k', v') :: r =>
      if String.eqb k k' then (k, v) :: r else (k', v') :: set k v r
  end.

Fixpoint indexed {A} (i : nat) (l : list A) : list (string * A) :=
  match l with
  | [] => []
  | x :: r => (pretty i, x) :: indexed (S i) r
  end.

Fixpoint chars (s : string) : list jsval :=
  match s with
  | EmptyString => []
  | String c r => JStr (String c EmptyString) :: chars r
  end.

(** [Object.entries(v)] for a [v] that is neither [null] nor [undefined] *)
Definition entries (v : jsval) : list (string * jsval) :=
  match v with
  | JObj fields => fields
  | JArr elems => indexed 0 elems
  | JStr s => indexed 0 (chars s)
  | _ => []
  end.

(** [Object.keys(v)] *)
Definition keys (v : jsval) : list string := map fst (entries v).

Definition isArray (v : jsval) : bool :=
  match v with JArr _ => true | _ => false end.

(** [v === s] for a string literal [s] *)
Definition is_str (v : jsval) (s : string) : bool :=
  match v with JStr s' => String.eqb s' s | _ => false end.

(** [r.includes(key)] for a truthy [r]: [Array.prototype.includes] on an
    array, [String.prototype.includes] on a string, and a call of
    [undefined] on anything else. *)
Definition includes (r : jsval) (key : string) : outcome bool :=
  match r with
  | JArr elems => Ret (existsb (fun e => is_str e key) elems)
  | JStr s => Ret (match String.index 0 key s with Some _ => true | None => false end)
  | _ => Throw (TypeError "required.includes is not a function")
  end.

Fixpoint join (parts : list string) : string :=
  match parts with
  | [] => EmptyString
  | [p] => p
  | p :: r => p +:+ "," +:+ join r
  end.

(** [v.length] for a [v] that is neither [null] nor [undefined]: the
    number of elements of an array and of code units of a string, the
    own entry of an object, [undefined] on a number or a boolean. *)
Definition length_of (v : jsval) : outcome jsval :=
  match v with
  | JArr elems => Ret (JNum (Z.of_nat (List.length elems)))
  | JStr s => Ret (JNum (Z.of_nat (String.length s)))
  | _ => get v "length"
  end.

(** [`${v}`]: the string conversion of a template literal.  An object
    from [JSON.parse] whose own [toString] entry shadows the inherited
    method cannot be converted. *)
Fixpoint toString (v : jsval) : outcome string :=
  match v with
  | JUndefined => Ret "undefined"
  | JNull => Ret "null"
  | JBool true => Ret "true"
  | JBool false => Ret "false"
  | JNum n => Ret (pretty n)
  | JStr s => Ret s
  | JArr elems =>
      let fix each (l : list jsval) : outcome (list string) :=
        match l with
        | [] => Ret []
        | e :: r =>
            s <~ match e with
                 | JUndefined | JNull => Ret EmptyString
                 | _ => toString e
                 end ;;
            ss <~ each r ;;
            Ret (s :: ss)
        end in
      ss <~ each elems ;; Ret (join ss)
  | JObj fields =>
      if has_key "toString" fields
      then Throw (TypeError "Cannot convert object to primitive value")
      else Ret "[object Object]"
  end.

End JS.

(** ** Validated schemas (the part of zod the program builds) *)

Inductive unknownKeys : Type := Strip | Passthrough.

Inductive zod : Type :=
  | ZAny
  | ZString
  | ZStringUrl
  | ZNumber
  | ZInt
  | ZBoolean
  | ZArray (item : zod)
  | ZObject (shape : list (string * zod)) (mode : unknownKeys)
  | ZOptional (inner : zod)
  | ZDefault (inner : zod) (value : jsval)
  | ZDescribe (inner : zod) (text : string).

Section ZodParse.

(** The URL grammar checked by [z.string().url()] is left open. *)
Variable is_url : string -> bool.

(** [schema.safeParse(v)]: the parsed value, or [None] when [v] is
    rejected.  An object schema reads each key of its shape from the
    input ([undefined] when absent); keys outside the shape are dropped
    in the default mode and kept by [passthrough()]. *)
Fixpoint zod_parse (z : zod) (v : jsval) {struct z} : option jsval :=
  match z with
  | ZAny => Some v
  | ZString => match v with JStr _ => Some v | _ => None end
  | ZStringUrl => match v with JStr s => if is_url s then Some v else None | _ => None end
  | ZNumber | ZInt => match v with JNum _ => Some v | _ => None end
  | ZBoolean => match v with JBool _ => Some v | _ => None end
  | ZArray item =>
      match v with
      | JArr elems =>
          let fix each (l : list jsval) : option (list jsval) :=
            match l with
            | [] => Some []
            | e :: r =>
                match zod_parse item e, each r with
                | Some e', Some r' => Some (e' :: r')
                | _, _ => None
                end
            end in
          match each elems with Some l => Some (JArr l) | None => None end
      | _ => None
      end
  | ZObject shape mode =>
      match v with
      | JObj fields =>
          let fix each (sh : list (string * zod)) : option (list (string * jsval)) :=
            match sh with
            | [] => Some []
            | (k, s) :: r =>
                let input := match JS.assoc k fields with Some x => x | None => JUndefined end in
                match zod_parse s input, each r with
                | Some x, Some out =>
                    Some (match x with
                          | JUndefined => if JS.has_key k fields then (k, x) :: out else out
                          | _ => (k, x) :: out
                          end)
                | _, _ => None
                end
            end in
          match each shape with
          | Some out =>
              Some (JObj (out ++ match mode with
                                 | Strip => []
                                 | Passthrough =>
                                     List.filter (fun kv => negb (JS.has_key (fst kv) shape)) fields
                                 end))
          | None => None
          end
      | _ => None
      end
  | ZOptional inner =>
      match v with JUndefined => Some JUndefined | _ => zod_parse inner v end
  | ZDefault inner d =>
      match v with JUndefined => zod_parse inner d | _ => zod_parse inner v end
  | ZDescribe inner _ => zod_parse inner v
  end.

Definition zod_accepts (z : zod) (v : jsval) : bool :=
  match zod_parse z v with Some _ => true | None => false end.

End ZodParse.

(** ** Schema translator ([jsonSchemaToZod], [convertJsonSchemaProperty]) *)

Module Translator.

(** The first loop of [jsonSchemaToZod]:
    [for (const [key, value] of Object.entries(jsonSchema.properties))
       shape[key] = this.convertJsonSchemaProperty(value)]. *)
Fixpoint build_shape (convert : jsval -> outcome zod)
    (props : list (string * jsval)) (shape : list (string * zod))
    : outcome (list (string * zod)) :=
  match props with
  | [] => Ret shape
  | (key, value) :: rest =>
      z <~ convert value ;;
      build_shape convert rest (JS.set key z shape)
  end.

(** The second loop:
    [for (const key of Object.keys(shape))
       if (!required.includes(key)) shape[key] = shape[key].optional()].
    Assigning to an existing key does not change the key order, so the
    loop visits the keys the shape had when it started. *)
Fixpoint mark_optional (required : jsval) (todo : list string)
    (shape : list (string * zod)) : outcome (list (string * zod)) :=
  match todo with
  | [] => Ret shape
  | key :: rest =>
      inc <~ JS.includes required key ;;
      mark_optional required rest
        (if inc then shape
         else match JS.assoc key shape with
              | Some z => JS.set key (ZOptional z) shape
              | None => shape
              end)
  end.

(** [jsonSchemaToZod], with the method it calls on each property passed
    in. *)
Definition jsonSchemaToZod_with (convert : jsval -> outcome zod)
    (jsonSchema : jsval) : outcome zod :=
  if negb (JS.truthy jsonSchema) || (length (JS.keys jsonSchema) =? 0)%nat then
    Ret (ZObject [] Passthrough)
  else
    ty <~ JS.get jsonSchema "type" ;;
    properties <~ (if JS.is_str ty "object" then JS.get jsonSchema "properties"
                   else Ret JUndefined) ;;
    if JS.is_str ty "object" && JS.truthy properties then
      shape <~ build_shape convert (JS.entries properties) [] ;;
      req <~ JS.get jsonSchema "required" ;;
      let required := JS.or req (JArr []) in
      shape' <~ mark_optional required (map fst shape) shape ;;
      Ret (ZObject shape' Strip)
    else
      Ret ZAny.

(** What the engine raises when the call stack is used up *)
Definition overflow : exn := JsError "RangeError" "Maximum call stack size exceeded".

(** [convertJsonSchemaProperty]; [fuel] bounds the depth of the calls, as
    the call stack does. *)
Fixpoint convertJsonSchemaProperty_fuel (fuel : nat) (prop : jsval) : outcome zod :=
  match fuel with
  | O => Throw overflow
  | S fuel' =>
      if negb (JS.truthy prop) then Ret ZAny
      else
        ty <~ JS.get prop "type" ;;
        if negb (JS.truthy ty) then Ret ZAny
        else if JS.is_str ty "string" then Ret ZString
        else if JS.is_str ty "number" then Ret ZNumber
        else if JS.is_str ty "integer" then Ret ZInt
        else if JS.is_str ty "boolean" then Ret ZBoolean
        else if JS.is_str ty "array" then
          items <~ JS.get prop "items" ;;
          if JS.truthy items then
            z <~ convertJsonSchemaProperty_fuel fuel' items ;;
            Ret (ZArray z)
          else Ret (ZArray ZAny)
        else if JS.is_str ty "object" then
          jsonSchemaToZod_with (convertJsonSchemaProperty_fuel fuel') prop
        else Ret ZAny
  end.

(** Nesting depth of a value: no call chain on [v] is longer. *)
Fixpoint depth (v : jsval) : nat :=
  match v with
  | JArr elems => S (fold_right (fun e m => Nat.max (depth e) m) 0%nat elems)
  | JObj fields => S (fold_right (fun kv m => Nat.max (depth (snd kv)) m) 0%nat fields)
  | _ => 0%nat
  end.

(** [convertJsonSchemaProperty] with a stack deep enough for [prop]
    ([convertJsonSchemaProperty_no_overflow] and
    [convertJsonSchemaProperty_eq] below: the bound is never reached, and
    the function satisfies the recursive equation of the source) *)
Definition convertJsonSchemaProperty (prop : jsval) : outcome zod :=
  convertJsonSchemaProperty_fuel (S (depth prop)) prop.

Definition jsonSchemaToZod (jsonSchema : jsval) : outcome zod :=
  jsonSchemaToZod_with convertJsonSchemaProperty jsonSchema.

End Translator.

(** ** Configuration ([config/mcp-connections.ts]) *)

Inductive ConnectionType : Type := external | system.

(** [interface McpConnection]; the optional [config] bag is read by none of
    the functions below and is left out. *)
Record McpConnection : Type := {
  conn_name : string;
  conn_description : string;
  conn_enabled : bool;
  conn_type : ConnectionType
}.

(** [interface McpConnectionConfig] of the client *)
Record McpConnectionConfig : Type := {
  connectionName : string;
  cfg_description : option string;
  cfg_enabled : option bool
}.

(** [process.env.X !== 'false'] *)
Definition env_not_false (x : option string) : bool :=
  match x with
  | Some s => negb (String.eqb s "false")
  | None => true
  end.

(** The table [DEFAULT_MCP_CONNECTIONS], built once when the module is
    loaded, from the value [MCP_ENABLED] has at that moment. *)
Definition DEFAULT_MCP_CONNECTIONS (MCP_ENABLED_at_load : option string)
    : list McpConnection :=
  [ {| conn_name := "you_mcp";
       conn_description :=
         "Unity Catalog MCP server for web search, content fetching, and real-time information";
       conn_enabled := env_not_false MCP_ENABLED_at_load;
       conn_type := external |} ].

(** ** The outside world *)

Record Response : Type := {
  status : N;
  statusText : string;
  text : outcome string;     (* [await response.text()] *)
  json : outcome jsval       (* [await response.json()] *)
}.

(** [response.ok] *)
Definition ok (r : Response) : bool :=
  (200 <=? status r)%N && (status r <=? 299)%N.

Inductive FetchResult : Type :=
  | Rejected (e : exn)
  | Responded (r : Response).

(** One round trip: how long it takes until the body has been read, and
    what comes back. *)
Record Exchange : Type := {
  elapsed : N;
  result : FetchResult
}.

Record Request : Type := {
  url : string;
  method : string;
  authorization : string;
  body : jsval
}.

(** Modelled from the spec: the authentication provider and the host
    lookup ([getDatabricksToken] of [@chat-template/auth], [getHostUrl] of
    [@chat-template/utils]) are not part of this source tree; the spec has
    them supply a bearer credential string and the registry address, which
    the world carries as [token] and [hostUrl].

    [clock] is [Date.now()], in milliseconds since the epoch.  [network] is
    what the registry will answer to the requests still to come, in order;
    once it is used up every further [fetch] is rejected.  [sent] records
    the requests issued so far.  [connections] is the table
    [DEFAULT_MCP_CONNECTIONS] as the process holds it. *)
Record World : Type := {
  clock : N;
  network : list Exchange;
  sent : list Request;
  MCP_ENABLED : option string;
  connections : list McpConnection;
  token : string;
  hostUrl : string
}.

(** ** Tools and the two singletons *)

(** The [execute] closure of a tool, by what it closes over. *)
Inductive executor : Type :=
  | ExecCallTool (connection : string) (toolName : jsval)
  | ExecWebSearch
  | ExecWebFetch.

Record Tool : Type := {
  name : string;
  description : jsval;
  inputSchema : zod;
  outputSchema : zod;
  execute : executor
}.

(** [DatabricksMCPClient] *)
Record ClientState : Type := {
  cachedTools : gmap string jsval;
  toolCacheExpiry : gmap string N
}.

(** [McpToolProvider]; [tools] is a [Map], whose keys keep the order in
    which they were first set. *)
Record ProviderState : Type := {
  tools : list (string * Tool);
  initialized : bool
}.

Record State : Type := {
  provider : ProviderState;
  client : ClientState;
  world : World
}.

(** ** The monad of the methods *)

Definition M (A : Type) : Type := State -> outcome A * State.

Definition ret {A} (a : A) : M A := fun s => (Ret a, s).
Definition throw {A} (e : exn) : M A := fun s => (Throw e, s).
Definition lift {A} (o : outcome A) : M A := fun s => (o, s).

Definition bind {A B} (m : M A) (k : A -> M B) : M B :=
  fun s =>
    match m s with
    | (Ret a, s') => k a s'
    | (Throw e, s') => (Throw e, s')
    end.

(** [try { body } catch (error) { handler }] *)
Definition try_catch {A} (body : M A) (handler : exn -> M A) : M A :=
  fun s =>
    match body s with
    | (Ret a, s') => (Ret a, s')
    | (Throw e, s') => handler e s'
    end.

Notation "x <- m ;; k" := (bind m (fun x => k))
  (at level 100, m at next level, right associativity).
Notation "m ;;; k" := (bind m (fun _ => k))
  (at level 100, right associativity).

Definition gets {A} (f : State -> A) : M A := fun s => (Ret (f s), s).
Definition modify (f : State -> State) : M unit := fun s => (Ret tt, f s).

Definition set_client (f : ClientState -> ClientState) : State -> State :=
  fun s => {| provider := provider s; client := f (client s); world := world s |}.
Definition set_provider (f : ProviderState -> ProviderState) : State -> State :=
  fun s => {| provider := f (provider s); client := client s; world := world s |}.
Definition set_world (f : World -> World) : State -> State :=
  fun s => {| provider := provider s; client := client s; world := f (world s) |}.

(** [for (const x of xs) { body }] *)
Fixpoint for_each {A} (xs : list A) (body : A -> M unit) : M unit :=
  match xs with
  | [] => ret tt
  | x :: rest => body x ;;; for_each rest body
  end.

(** [Date.now()] *)
Definition Date_now : M N := gets (fun s => clock (world s)).

(** [await fetch(url, { method: 'POST', headers, body })]: the request
    goes out, time passes, and the next answer of the network comes
    back. *)
Definition fetch (req : Request) : M Response :=
  fun s =>
    let w := world s in
    match network w with
    | [] =>
        (Throw (TypeError "fetch failed"),
         set_world (fun _ => {| clock := clock w; network := []; sent := sent w ++ [req];
                                MCP_ENABLED := MCP_ENABLED w; connections := connections w;
                                token := token w; hostUrl := hostUrl w |}) s)
    | x :: rest =>
        let s' := set_world (fun _ => {| clock := (clock w + elapsed x)%N; network := rest;
                                         sent := sent w ++ [req];
                                         MCP_ENABLED := MCP_ENABLED w;
                                         connections := connections w;
                                         token := token w; hostUrl := hostUrl w |}) s in
        match result x with
        | Rejected e => (Throw e, s')
        | Responded r => (Ret r, s')
        end
    end.

(** [getEnabledMcpConnections] *)
Definition getEnabledMcpConnections : M (list McpConnection) :=
  gets (fun s => List.filter conn_enabled (connections (world s))).

(** [isMcpEnabled] *)
Definition isMcpEnabled : M bool :=
  gets (fun s =>
    env_not_false (MCP_ENABLED (world s))
    && (0 <? length (List.filter conn_enabled (connections (world s))))%nat).

(** ** [DatabricksMCPClient] *)

Module Client.

(** [CACHE_DURATION = 5 * 60 * 1000] *)
Definition CACHE_DURATION : N := 5 * 60 * 1000.

(** Membership in the class [[a-zA-Z0-9_]] *)
Definition is_word_char (c : ascii) : bool :=
  let n := N_of_ascii c in
  ((97 <=? n) && (n <=? 122) || (65 <=? n) && (n <=? 90)
   || (48 <=? n) && (n <=? 57) || (n =? 95))%N.

(** [s.replace(/[^a-zA-Z0-9_]/g, '_')] *)
Fixpoint replace_nonword (s : string) : string :=
  match s with
  | EmptyString => EmptyString
  | String c r => String (if is_word_char c then c else "_"%char) (replace_nonword r)
  end.

(** [`${connectionName}_${toolName}`.replace(/[^a-zA-Z0-9_]/g, '_')], the
    [name] given to a converted tool *)
Definition qualifiedName (connectionName toolName : string) : string :=
  replace_nonword (connectionName +:+ "_" +:+ toolName).

(** [getAuthHeaders]: the value of the [Authorization] header *)
Definition getAuthHeaders : M string :=
  gets (fun s => "Bearer " +:+ token (world s)).

(** [getBaseUrl] *)
Definition getBaseUrl : M string :=
  gets (fun s => hostUrl (world s) +:+ "/api/2.0/mcp").

(** [cacheTools].  Its last line logs [`Cached ${tools.length} tools`]:
    once both entries are set, [tools.length] is read and converted to a
    string, which raises when the value has no string form. *)
Definition cacheTools (connectionName : string) (tools : jsval) : M unit :=
  now <- Date_now ;;
  modify (set_client (fun c =>
    {| cachedTools := <[connectionName := tools]> (cachedTools c);
       toolCacheExpiry := <[connectionName := (now + CACHE_DURATION)%N]> (toolCacheExpiry c) |})) ;;;
  count <- lift (JS.length_of tools) ;;
  lift (JS.toString count) ;;;
  ret tt.

(** The test [cached && expiry && Date.now() < expiry] *)
Definition cache_is_fresh (cached : option jsval) (expiry : option N) (now : N) : bool :=
  match cached, expiry with
  | Some c, Some e => JS.truthy c && negb (e =? 0)%N && (now <? e)%N
  | _, _ => false
  end.

(** [listTools] *)
Definition listTools (connectionName : string) : M jsval :=
  cached <- gets (fun s => cachedTools (client s) !! connectionName) ;;
  expiry <- gets (fun s => toolCacheExpiry (client s) !! connectionName) ;;
  now <- Date_now ;;
  if cache_is_fresh cached expiry now then
    ret (match cached with Some c => c | None => JUndefined end)
  else
    try_catch
      (headers <- getAuthHeaders ;;
       baseUrl <- getBaseUrl ;;
       let toolsUrl := baseUrl +:+ "/external/" +:+ connectionName in
       response <- fetch {| url := toolsUrl; method := "POST"; authorization := headers;
                            body := JObj [("method", JStr "tools/list")] |} ;;
       if negb (ok response) then
         lift (text response) ;;;
         ret (JArr [])
       else
         data <- lift (json response) ;;
         data_tools <- lift (JS.get data "tools") ;;
         let tools :=
           if JS.truthy data_tools then data_tools
           else if JS.isArray data then data
           else JArr [] in
         cacheTools connectionName tools ;;;
         ret tools)
      (fun error => ret (JArr [])).

(** [callTool] *)
Definition callTool (connectionName : string) (toolName : jsval) (args : jsval) : M jsval :=
  try_catch
    (headers <- getAuthHeaders ;;
     baseUrl <- getBaseUrl ;;
     let requestBody :=
       JObj [("method", JStr "tools/call");
             ("params", JObj [("name", toolName);
                              ("arguments", JS.or args (JObj []))])] in
     let callUrl := baseUrl +:+ "/external/" +:+ connectionName in
     response <- fetch {| url := callUrl; method := "POST"; authorization := headers;
                          body := requestBody |} ;;
     if negb (ok response) then
       lift (text response) ;;;
       throw (JsError "Error" ("Tool call failed: " +:+ statusText response))
     else
       data <- lift (json response) ;;
       data_result <- lift (JS.get data "result") ;;
       match data_result with
       | JUndefined =>
           data_content <- lift (JS.get data "content") ;;
           if JS.truthy data_content then ret data_content else ret data
       | _ => ret data_result
       end)
    (fun error => throw error).

(** [convertToAiSdkTool]; the properties of the literal are evaluated in
    the order they are written. *)
Definition convertToAiSdkTool (mcpTool : jsval) (connectionName : string) : outcome Tool :=
  schema <~ JS.get mcpTool "inputSchema" ;;
  inputSchema <~ Translator.jsonSchemaToZod (JS.or schema (JObj [])) ;;
  tool_name <~ JS.get mcpTool "name" ;;
  shown <~ JS.toString tool_name ;;
  descr <~ JS.get mcpTool "description" ;;
  Ret {| name := qualifiedName connectionName shown;
         description := JS.or descr (JStr ("MCP tool: " +:+ shown));
         inputSchema := inputSchema;
         outputSchema := ZAny;
         execute := ExecCallTool connectionName tool_name |}.

(** What [for (const x of v)] runs through *)
Definition iterate (v : jsval) : outcome (list jsval) :=
  match v with
  | JArr elems => Ret elems
  | JStr s => Ret (JS.chars s)
  | _ => Throw (TypeError "mcpTools is not iterable")
  end.

(** The inner loop of [getAllTools],
    [for (const mcpTool of mcpTools)
       allTools.push(this.convertToAiSdkTool(mcpTool, connectionName))]:
    the tools pushed, and whether the loop ran to its end. *)
Fixpoint push_converted (connectionName : string) (mcpTools : list jsval)
    (allTools : list Tool) : list Tool * outcome unit :=
  match mcpTools with
  | [] => (allTools, Ret tt)
  | mcpTool :: rest =>
      match convertToAiSdkTool mcpTool connectionName with
      | Ret t => push_converted connectionName rest (allTools ++ [t])
      | Throw e => (allTools, Throw e)
      end
  end.

(** The body of the loop of [getAllTools] for one connection; the [catch]
    only logs, and what was pushed before stays. *)
Definition getAllTools_step (connection : McpConnectionConfig) (allTools : list Tool)
    : M (list Tool) :=
  if match cfg_enabled connection with Some false => false | _ => true end then
    try_catch
      (mcpTools <- listTools (connectionName connection) ;;
       match iterate mcpTools with
       | Ret elems => ret (fst (push_converted (connectionName connection) elems allTools))
       | Throw _ => ret allTools
       end)
      (fun error => ret allTools)
  else ret allTools.

(** [getAllTools] *)
Fixpoint getAllTools_from (connections : list McpConnectionConfig) (allTools : list Tool)
    : M (list Tool) :=
  match connections with
  | [] => ret allTools
  | connection :: rest =>
      allTools' <- getAllTools_step connection allTools ;;
      getAllTools_from rest allTools'
  end.

Definition getAllTools (connections : list McpConnectionConfig) : M (list Tool) :=
  getAllTools_from connections [].

(** [initialize]: fetch the tools of every enabled connection ahead of
    use *)
Definition initialize (connections : list McpConnectionConfig) : M unit :=
  for_each connections (fun connection =>
    if match cfg_enabled connection with Some false => false | _ => true end then
      try_catch (listTools (connectionName connection) ;;; ret tt)
                (fun error => ret tt)
    else ret tt).

(** [clearCache] *)
Definition clearCache : M unit :=
  modify (set_client (fun _ => {| cachedTools := ∅; toolCacheExpiry := ∅ |})).

End Client.

(** ** [McpToolProvider] *)

Module Provider.

Definition set_tools (f : list (string * Tool) -> list (string * Tool)) : State -> State :=
  set_provider (fun p => {| tools := f (tools p); initialized := initialized p |}).

Definition set_initialized (b : bool) : State -> State :=
  set_provider (fun p => {| tools := tools p; initialized := b |}).

Definition desc (text : string) (z : zod) : zod := ZDescribe z text.

(** The tool object built by [addWebSearchTool] *)
Definition web_search_tool : Tool :=
  {| name := "web_search";
     description := JStr "Search the web for current information, news, and recent events";
     inputSchema :=
       ZObject [("query", desc "The search query" ZString);
                ("maxResults", desc "Maximum number of results to return"
                                 (ZDefault (ZOptional ZNumber) (JNum 10)))] Strip;
     outputSchema :=
       ZObject [("results",
                 ZArray (ZObject [("title", ZString); ("url", ZString); ("snippet", ZString);
                                  ("publishedDate", ZOptional ZString)] Strip))] Strip;
     execute := ExecWebSearch |}.

(** The tool object built by [addWebFetchTool] *)
Definition web_fetch_tool : Tool :=
  {| name := "web_fetch";
     description := JStr "Fetch and analyze content from a web page";
     inputSchema :=
       ZObject [("url", desc "The URL to fetch" ZStringUrl);
                ("extractText", desc "Whether to extract text content"
                                  (ZDefault (ZOptional ZBoolean) (JBool true)));
                ("summarize", desc "Whether to summarize the content"
                                (ZDefault (ZOptional ZBoolean) (JBool false)))] Strip;
     outputSchema :=
       ZObject [("title", ZOptional ZString); ("content", ZString); ("url", ZString);
                ("fetchedAt", ZString)] Strip;
     execute := ExecWebFetch |}.

(** [addWebSearchTool] *)
Definition addWebSearchTool : M unit :=
  modify (set_tools (JS.set "web_search" web_search_tool)).

(** [addWebFetchTool] *)
Definition addWebFetchTool : M unit :=
  modify (set_tools (JS.set "web_fetch" web_fetch_tool)).

(** [addDefaultTools] *)
Definition addDefaultTools : M unit :=
  addWebSearchTool ;;; addWebFetchTool.

(** [error instanceof Error ? error.message : fallback] *)
Definition message_or (error : exn) (fallback : string) : string :=
  match error with
  | JsError _ message => message
  | JsThrown _ => fallback
  end.

Section Execute.

(** [new Date(t).toISOString()]; the calendar arithmetic is left open. *)
Variable toISOString : N -> string.

(** The [execute] of [web_search] *)
Definition execute_web_search (args : jsval) : M jsval :=
  try_catch
    (result <- Client.callTool "you_mcp" (JStr "web_search") args ;;
     ret result)
    (fun error =>
       ret (JObj [("results", JArr []);
                  ("error", JStr (message_or error "Search failed"))])).

(** The [execute] of [web_fetch] *)
Definition execute_web_fetch (args : jsval) : M jsval :=
  try_catch
    (result <- Client.callTool "you_mcp" (JStr "web_fetch") args ;;
     ret result)
    (fun error =>
       args_url <- lift (JS.get args "url") ;;
       now <- Date_now ;;
       ret (JObj [("content", JStr EmptyString);
                  ("url", args_url);
                  ("fetchedAt", JStr (toISOString now));
                  ("error", JStr (message_or error "Fetch failed"))])).

(** [tool.execute(args)] *)
Definition run_execute (t : Tool) (args : jsval) : M jsval :=
  match execute t with
  | ExecCallTool connection toolName => Client.callTool connection toolName args
  | ExecWebSearch => execute_web_search args
  | ExecWebFetch => execute_web_fetch args
  end.

End Execute.

Definition to_config (conn : McpConnection) : McpConnectionConfig :=
  {| connectionName := conn_name conn;
     cfg_description := Some (conn_description conn);
     cfg_enabled := Some (conn_enabled conn) |}.

(** The body of the loop of [loadTools] for one connection *)
Definition loadTools_step (connection : McpConnection) : M unit :=
  try_catch
    (loaded <- Client.getAllTools [to_config connection] ;;
     for_each loaded (fun tool => modify (set_tools (JS.set (name tool) tool))) ;;;
     if (length loaded =? 0)%nat && String.eqb (conn_name connection) "you_mcp"
     then addDefaultTools
     else ret tt)
    (fun error =>
       if String.eqb (conn_name connection) "you_mcp" then addDefaultTools else ret tt).

(** [loadTools] *)
Definition loadTools (connections : list McpConnection) : M unit :=
  modify (set_tools (fun _ => [])) ;;;
  for_each connections loadTools_step.

(** [initialize] *)
Definition initialize : M unit :=
  already <- gets (fun s => initialized (provider s)) ;;
  if already then ret tt
  else
    enabled <- isMcpEnabled ;;
    if negb enabled then modify (set_initialized true)
    else
      try_catch
        (connections <- getEnabledMcpConnections ;;
         Client.initialize (map to_config connections) ;;;
         loadTools connections ;;;
         modify (set_initialized true))
        (fun error => modify (set_initialized true)).

(** [getTools] *)
Definition getTools (s : State) : list (string * Tool) :=
  if negb (initialized (provider s)) then []
  else fold_left (fun tools entry => JS.set (fst entry) (snd entry) tools)
                 (tools (provider s)) [].

(** [getTool] *)
Definition getTool (s : State) (name : string) : option Tool :=
  JS.assoc name (tools (provider s)).


(** [getToolNames] *)
Definition getToolNames (s : State) : list string :=
  map fst (tools (provider s)).

(** [refresh] *)
Definition refresh : M unit :=
  Client.clearCache ;;;
  modify (set_initialized false) ;;;
  initialize.

End Provider.

(** ** Vocabulary of the statements *)

(** Every character lies in [[a-zA-Z0-9_]]. *)
Fixpoint word_only (s : string) : bool :=
  match s with
  | EmptyString => true
  | String c r => Client.is_word_char c && word_only r
  end.

(** The schema of the second test vector,
    [{type:"object", properties:{q:{type:"string"}}, required:["q"]}] *)
Definition q_schema : jsval :=
  JObj [("type", JStr "object");
        ("properties", JObj [("q", JObj [("type", JStr "string")])]);
        ("required", JArr [JStr "q"])].

(** The schema the translator gives for [q_schema] *)
Definition q_zod : zod := ZObject [("q", ZString)] Strip.

(** [required.includes(key)] for the elements of an array *)
Definition listed (required : list jsval) (key : string) : bool :=
  existsb (fun e => JS.is_str e key) required.

(** [jsonSchema.required || []], when that is an array *)
Definition required_array (fields : list (string * jsval)) : option (list jsval) :=
  match JS.or (match JS.assoc "required" fields with Some x => x | None => JUndefined end)
              (JArr []) with
  | JArr elems => Some elems
  | _ => None
  end.

(** The request a discovery sends for [connectionName] *)
Definition list_request (connectionName : string) (w : World) : Request :=
  {| url := (hostUrl w +:+ "/api/2.0/mcp") +:+ "/external/" +:+ connectionName;
     method := "POST";
     authorization := "Bearer " +:+ token w;
     body := JObj [("method", JStr "tools/list")] |}.

(** [listTools] will answer from the cache. *)
Definition cache_hit (connectionName : string) (s : State) : bool :=
  Client.cache_is_fresh (cachedTools (client s) !! connectionName)
                        (toolCacheExpiry (client s) !! connectionName)
                        (clock (world s)).

(** A response body that is neither an object with a [tools] field nor an
    array *)
Definition malformed (data : jsval) : bool :=
  match data with
  | JArr _ => false
  | JObj fields => negb (JS.has_key "tools" fields)
  | _ => true
  end.

(** The next round trip is a failed discovery: a transport error (also
    when the network has nothing left to answer), a status outside
    200..299, a body that is not JSON, or a malformed body. *)
Definition discovery_fails (net : list Exchange) : bool :=
  match net with
  | [] => true
  | x :: _ =>
      match result x with
      | Rejected _ => true
      | Responded r =>
          negb (ok r)
          || match json r with
             | Throw _ => true
             | Ret data => malformed data
             end
      end
  end.

(** The failures after which [listTools] gives up before it reaches
    [cacheTools]: a transport error, a status outside 200..299, a body
    that is not JSON, and the body [null], on which reading [data.tools]
    raises. *)
Definition discovery_aborts (net : list Exchange) : bool :=
  match net with
  | [] => true
  | x :: _ =>
      match result x with
      | Rejected _ => true
      | Responded r =>
          negb (ok r)
          || match json r with
             | Throw _ | Ret JNull | Ret JUndefined => true
             | Ret _ => false
             end
      end
  end.

(** The log line of [cacheTools] can be written for [tools]: the value of
    [tools.length] has a string form. *)
Definition countable (tools : jsval) : bool :=
  match (count <~ JS.length_of tools ;; JS.toString count) with
  | Ret _ => true
  | Throw _ => false
  end.

(** The world once the next round trip is over *)
Definition after_fetch (req : Request) (w : World) : World :=
  {| clock := match network w with [] => clock w | x :: _ => (clock w + elapsed x)%N end;
     network := tl (network w);
     sent := sent w ++ [req];
     MCP_ENABLED := MCP_ENABLED w;
     connections := connections w;
     token := token w;
     hostUrl := hostUrl w |}.

(** The process right after start-up: nothing cached, nothing loaded. *)
Definition boot (w : World) : State :=
  {| provider := {| tools := []; initialized := false |};
     client := {| cachedTools := ∅; toolCacheExpiry := ∅ |};
     world := w |}.

(** A world for the examples: the table of the source with [MCP_ENABLED]
    unset, and a registry that answers with [net]. *)
Definition sample_world (net : list Exchange) : World :=
  {| clock := 1700000000000;
     network := net;
     sent := [];
     MCP_ENABLED := None;
     connections := DEFAULT_MCP_CONNECTIONS None;
     token := "dapi-example";
     hostUrl := "https://example.cloud.databricks.com" |}.

(** A 200 response with the JSON body [data], after 40 ms *)
Definition answer (data : jsval) : Exchange :=
  {| elapsed := 40;
     result := Responded {| status := 200; statusText := "OK";
                            text := Ret EmptyString; json := Ret data |} |}.

(** A response with a status outside 200..299 *)
Definition refusal : Exchange :=
  {| elapsed := 15;
     result := Responded {| status := 503; statusText := "Service Unavailable";
                            text := Ret "upstream down"; json := Throw (JsError "SyntaxError" "Unexpected token u in JSON at position 0") |} |}.

(** The state reached by running [m] from [s], and what [m] returned *)
Definition state_after {A} (m : M A) (s : State) : State := snd (m s).
Definition result_of {A} (m : M A) (s : State) : outcome A := fst (m s).

(** What the methods may change of the world: time passes, answers are
    consumed and requests are added at the end of [sent]; the
    configuration and the credentials stay. *)
Definition extends (w w' : World) : Prop :=
  MCP_ENABLED w' = MCP_ENABLED w
  /\ connections w' = connections w
  /\ token w' = token w
  /\ hostUrl w' = hostUrl w
  /\ exists more, sent w' = sent w ++ more.

(** A computation that returns (never raises), neither reads nor writes
    the catalog, and changes the world as [extends] allows. *)
Definition quiet {A} (m : M A) : Prop :=
  forall c w, exists a c' w',
    extends w w'
    /\ forall p, m {| provider := p; client := c; world := w |}
                 = (Ret a, {| provider := p; client := c'; world := w' |}).

(** The discovery that feeds the catalog when [initialize] is run from
    [s]: the call of [listTools] made by [loadTools], after the client has
    pre-fetched the tools of the enabled connections. *)
Definition discovery_at_load (connectionName : string) (s : State) : outcome jsval :=
  result_of (Client.listTools connectionName)
    (state_after
       (Client.initialize
          (map Provider.to_config (List.filter conn_enabled (connections (world s)))))
       s).

(** [args.url], for an [args] that is neither [null] nor [undefined] *)
Definition url_of (args : jsval) : jsval :=
  match args with
  | JObj fields => match JS.assoc "url" fields with Some x => x | None => JUndefined end
  | _ => JUndefined
  end.

Definition nullish (v : jsval) : bool :=
  match v with JUndefined | JNull => true | _ => false end.

(** What one round of the loop of [loadTools] leaves in the catalog, given
    the tools [getAllTools] returned for the connection. *)
Definition installed (connection : McpConnection) (loaded : list Tool)
    (held : list (string * Tool)) : list (string * Tool) :=
  let held' := fold_left (fun acc t => JS.set (name t) t acc) loaded held in
  if (length loaded =? 0)%nat && String.eqb (conn_name connection) "you_mcp"
  then JS.set "web_fetch" Provider.web_fetch_tool
         (JS.set "web_search" Provider.web_search_tool held')
  else held'.

(** [isMcpEnabled()] in the world [w] *)
Definition enabled_in (w : World) : bool :=
  env_not_false (MCP_ENABLED w)
  && (0 <? length (List.filter conn_enabled (connections w)))%nat.

(** What is raised carries a message: it is not an [Error] whose
    [message] is empty. *)
Definition described (e : exn) : bool :=
  match e with
  | JsError _ message => negb (String.eqb message EmptyString)
  | JsThrown _ => true
  end.

(** The exceptions that come from the platform in the next round trip,
    that is [fetch] rejecting and [response.text()] or [response.json()]
    failing, carry a message, as the [TypeError] and [SyntaxError] of the
    run time do. *)
Definition platform_errors_described (net : list Exchange) : bool :=
  match net with
  | [] => true
  | x :: _ =>
      match result x with
      | Rejected e => described e
      | Responded r =>
          match text r with Throw e => described e | Ret _ => true end
          && match json r with Throw e => described e | Ret _ => true end
      end
  end.

(** ** [config/mcp-connections.ts], continued *)

(** [getMcpConnection] *)
Definition getMcpConnection (wanted : string) : M (option McpConnection) :=
  gets (fun s =>
    List.find (fun conn => String.eqb (conn_name conn) wanted) (connections (world s))).

(** ** [routes/mcp.ts] *)

Module Routes.

(** What a handler sends back: [res.json(body)] answers 200,
    [res.status(500).json(body)] answers 500.  The handlers run behind
    [authMiddleware] and [requireAuth], which belong to another package;
    what follows is what runs for a request they let through. *)
Record HttpResponse : Type := {
  code : N;
  payload : jsval
}.

Definition type_name (t : ConnectionType) : string :=
  match t with external => "external" | system => "system" end.

Definition names_json (names : list string) : jsval := JArr (map JStr names).

Definition count_json {A} (l : list A) : jsval := JNum (Z.of_nat (length l)).

(** The body of a 500 answer *)
Definition failure (what : string) (error : exn) : HttpResponse :=
  {| code := 500;
     payload := JObj [("error", JStr what);
                      ("message", JStr (Provider.message_or error "Unknown error"))] |}.

(** [GET /api/mcp/status] *)
Definition status : M HttpResponse :=
  try_catch
    (enabled <- isMcpEnabled ;;
     connections <- getEnabledMcpConnections ;;
     toolNames <- gets Provider.getToolNames ;;
     ret {| code := 200;
            payload :=
              JObj [("enabled", JBool enabled);
                    ("connections",
                     JArr (map (fun conn =>
                                  JObj [("name", JStr (conn_name conn));
                                        ("description", JStr (conn_description conn));
                                        ("type", JStr (type_name (conn_type conn)));
                                        ("enabled", JBool (conn_enabled conn))])
                               connections));
                    ("tools", names_json toolNames);
                    ("toolCount", count_json toolNames)] |})
    (fun error => ret (failure "Failed to get MCP status" error)).

(** One element of [toolDetails]; a schema is an object, so
    [!!tool.inputSchema] and [!!tool.outputSchema] are [true]. *)
Definition tool_detail (entry : string * Tool) : jsval :=
  JObj [("name", JStr (fst entry));
        ("description", description (snd entry));
        ("hasInputSchema", JBool true);
        ("hasOutputSchema", JBool true)].

(** [GET /api/mcp/tools] *)
Definition tools_route : M HttpResponse :=
  try_catch
    (held <- gets Provider.getTools ;;
     let toolDetails := map tool_detail held in
     ret {| code := 200;
            payload := JObj [("tools", JArr toolDetails);
                             ("count", count_json toolDetails)] |})
    (fun error => ret (failure "Failed to get MCP tools" error)).

(** [POST /api/mcp/refresh] *)
Definition refresh_route : M HttpResponse :=
  try_catch
    (Provider.refresh ;;;
     toolNames <- gets Provider.getToolNames ;;
     ret {| code := 200;
            payload := JObj [("success", JBool true);
                             ("message", JStr "MCP tools refreshed successfully");
                             ("toolCount", count_json toolNames);
                             ("tools", names_json toolNames)] |})
    (fun error => ret (failure "Failed to refresh MCP tools" error)).

End Routes.

(** ** Vocabulary of the further statements *)

(** The request [callTool] sends *)
Definition call_request (connectionName : string) (toolName args : jsval) (w : World)
    : Request :=
  {| url := (hostUrl w +:+ "/api/2.0/mcp") +:+ "/external/" +:+ connectionName;
     method := "POST";
     authorization := "Bearer " +:+ token w;
     body := JObj [("method", JStr "tools/call");
                   ("params", JObj [("name", toolName);
                                    ("arguments", JS.or args (JObj []))])] |}.

(** [data.k] on a value that is neither [null] nor [undefined] *)
Definition field (k : string) (data : jsval) : jsval :=
  match data with
  | JObj fields => match JS.assoc k fields with Some x => x | None => JUndefined end
  | _ => JUndefined
  end.

(** The next round trip brings a 2xx response whose body is the JSON
    value [data]. *)
Definition answers_with (net : list Exchange) (data : jsval) : Prop :=
  exists x rest r,
    net = x :: rest /\ result x = Responded r /\ ok r = true /\ json r = Ret data.

(** The keys of the tool map are distinct, every tool sits under its own
    name, and every name is made of [[a-zA-Z0-9_]] only. *)
Definition catalog_ok (held : list (string * Tool)) : Prop :=
  List.NoDup (map fst held)
  /\ Forall (fun entry => fst entry = name (snd entry)
                          /\ word_only (fst entry) = true) held.

Definition disabled (cfg : McpConnectionConfig) : bool :=
  match cfg_enabled cfg with Some false => true | _ => false end.

(** The only error the schema translator can raise *)
Definition includes_error : exn := TypeError "required.includes is not a function".

(** The catalog once the tools [loaded] from a connection have been put
    in, one [this.tools.set(tool.name, tool)] after the other *)
Definition load (loaded : list Tool) (held : list (string * Tool)) : list (string * Tool) :=
  fold_left (fun acc t => JS.set (name t) t acc) loaded held.

(** [r.includes] can be called: [r] is an array, a string, or falsy (in
    which case [jsonSchema.required || []] is the empty array). *)
Definition includes_defined (r : jsval) : bool :=
  match r with
  | JArr _ | JStr _ => true
  | _ => negb (JS.truthy r)
  end.

(** No object anywhere in [v] has a [required] on which [includes] cannot
    be called. *)
Fixpoint tame (v : jsval) : bool :=
  match v with
  | JArr elems => forallb tame elems
  | JObj fields =>
      includes_defined
        (match JS.assoc "required" fields with Some r => r | None => JUndefined end)
      && (fix each (l : list (string * jsval)) : bool :=
            match l with
            | [] => true
            | (_, x) :: rest => tame x && each rest
            end) fields
  | _ => true
  end.

(** * Properties *)

#[local] Arguments String.append : simpl nomatch.
#[local] Arguments Client.cache_is_fresh : simpl never.

(** ** The translator's recursion is well founded *)

Module TranslatorFacts.
Import Translator.

Lemma depth_field k (fields : list (string * jsval)) v :
  JS.assoc k fields = Some v -> (depth v < depth (JObj fields))%nat.
Proof.
  simpl. induction fields as [|[k' v'] r IH]; simpl; [discriminate|].
  destruct (String.eqb k k').
  - intros [= ->]. lia.
  - intros H. specialize (IH H). lia.
Qed.

Lemma depth_In_fields (fields : list (string * jsval)) kv :
  In kv fields -> (depth (snd kv) < depth (JObj fields))%nat.
Proof.
  simpl. induction fields as [|kv' r IH]; simpl; [tauto|].
  intros [->|H]; [lia|]. specialize (IH H). lia.
Qed.

Lemma depth_In_elems (elems : list jsval) v :
  In v elems -> (depth v < depth (JArr elems))%nat.
Proof.
  simpl. induction elems as [|v' r IH]; simpl; [tauto|].
  intros [->|H]; [lia|]. specialize (IH H). lia.
Qed.

Lemma In_indexed {A} (l : list A) i kv : In kv (JS.indexed i l) -> In (snd kv) l.
Proof.
  revert i. induction l as [|x r IH]; simpl; intros i; [tauto|].
  intros [<-|H]; [now left|]. right. eapply IH, H.
Qed.

Lemma depth_chars s v : In v (JS.chars s) -> depth v = 0%nat.
Proof.
  induction s as [|c r IH]; simpl; [tauto|]. intros [<-|H]; [reflexivity|auto].
Qed.

(** The values [jsonSchemaToZod] hands to [convertJsonSchemaProperty] lie
    strictly inside the schema. *)
Lemma depth_entries_of_field k fields props kv :
  JS.assoc k fields = Some props -> In kv (JS.entries props) ->
  (depth (snd kv) < depth (JObj fields))%nat.
Proof.
  intros Hk Hin. pose proof (depth_field _ _ _ Hk) as Hlt.
  destruct props; simpl in Hin; try tauto.
  - apply In_indexed, depth_chars in Hin. lia.
  - apply In_indexed, depth_In_elems in Hin. lia.
  - apply depth_In_fields in Hin. lia.
Qed.

Lemma build_shape_ext f g props shape :
  (forall kv, In kv props -> f (snd kv) = g (snd kv)) ->
  build_shape f props shape = build_shape g props shape.
Proof.
  revert shape. induction props as [|[k v] r IH]; simpl; intros shape H; [reflexivity|].
  pose proof (H (k, v) (or_introl eq_refl)) as Hkv. simpl in Hkv. rewrite Hkv.
  destruct (g v); simpl; [|reflexivity]. apply IH. intros kv Hin. apply H. now right.
Qed.

Lemma jsonSchemaToZod_with_ext f g j :
  (forall v, (depth v < depth j)%nat -> f v = g v) ->
  jsonSchemaToZod_with f j = jsonSchemaToZod_with g j.
Proof.
  intros H. unfold jsonSchemaToZod_with.
  destruct (negb (JS.truthy j) || (length (JS.keys j) =? 0)%nat); [reflexivity|].
  destruct j; simpl; try reflexivity.
  destruct (JS.is_str _ "object") eqn:Hty; simpl; [|reflexivity].
  destruct (JS.assoc "properties" fields) as [props|] eqn:Hp; simpl; [|reflexivity].
  destruct (JS.truthy props); [|reflexivity].
  rewrite (build_shape_ext f g); [reflexivity|].
  intros kv Hin. apply H. eapply depth_entries_of_field; eassumption.
Qed.

Lemma fuel_step n prop :
  convertJsonSchemaProperty_fuel (S n) prop =
    if negb (JS.truthy prop) then Ret ZAny
    else
      ty <~ JS.get prop "type" ;;
      if negb (JS.truthy ty) then Ret ZAny
      else if JS.is_str ty "string" then Ret ZString
      else if JS.is_str ty "number" then Ret ZNumber
      else if JS.is_str ty "integer" then Ret ZInt
      else if JS.is_str ty "boolean" then Ret ZBoolean
      else if JS.is_str ty "array" then
        items <~ JS.get prop "items" ;;
        if JS.truthy items then
          z <~ convertJsonSchemaProperty_fuel n items ;;
          Ret (ZArray z)
        else Ret (ZArray ZAny)
      else if JS.is_str ty "object" then
        jsonSchemaToZod_with (convertJsonSchemaProperty_fuel n) prop
      else Ret ZAny.
Proof. reflexivity. Qed.

#[local] Arguments convertJsonSchemaProperty_fuel : simpl never.
#[local] Arguments depth : simpl never.

Lemma depth_JObj fields :
  depth (JObj fields)
  = S (fold_right (fun kv m => Nat.max (depth (snd kv)) m) 0%nat fields).
Proof. reflexivity. Qed.

(** Any fuel above the depth of the value gives the same result. *)
Lemma fuel_irrelevant n : forall m p,
  (depth p < n)%nat -> (depth p < m)%nat ->
  convertJsonSchemaProperty_fuel n p = convertJsonSchemaProperty_fuel m p.
Proof.
  induction n as [|n IH]; intros m p Hn Hm; [lia|].
  destruct m as [|m]; [lia|]. rewrite !fuel_step.
  destruct (negb (JS.truthy p)); [reflexivity|].
  destruct p; simpl; try reflexivity.
  set (ty := match JS.assoc "type" fields with Some x => x | None => JUndefined end).
  destruct (negb (JS.truthy ty)); [reflexivity|].
  repeat (match goal with |- context [if JS.is_str ty ?s then _ else _] =>
            destruct (JS.is_str ty s); [reflexivity|] end).
  destruct (JS.is_str ty "array").
  { destruct (JS.assoc "items" fields) as [items|] eqn:Hi; simpl; [|reflexivity].
    destruct (JS.truthy items); [|reflexivity].
    apply depth_field in Hi. rewrite (IH m items) by lia. reflexivity. }
  destruct (JS.is_str ty "object"); [|reflexivity].
  apply jsonSchemaToZod_with_ext. intros v Hv. apply IH; lia.
Qed.

Lemma convertJsonSchemaProperty_enough_fuel n p :
  (depth p < n)%nat ->
  convertJsonSchemaProperty_fuel n p = convertJsonSchemaProperty p.
Proof. intros H. apply fuel_irrelevant; [assumption|lia]. Qed.

(** [convertJsonSchemaProperty] satisfies the equation the source is
    written as. *)
Lemma convertJsonSchemaProperty_eq prop :
  convertJsonSchemaProperty prop =
    if negb (JS.truthy prop) then Ret ZAny
    else
      ty <~ JS.get prop "type" ;;
      if negb (JS.truthy ty) then Ret ZAny
      else if JS.is_str ty "string" then Ret ZString
      else if JS.is_str ty "number" then Ret ZNumber
      else if JS.is_str ty "integer" then Ret ZInt
      else if JS.is_str ty "boolean" then Ret ZBoolean
      else if JS.is_str ty "array" then
        items <~ JS.get prop "items" ;;
        if JS.truthy items then
          z <~ convertJsonSchemaProperty items ;;
          Ret (ZArray z)
        else Ret (ZArray ZAny)
      else if JS.is_str ty "object" then jsonSchemaToZod prop
      else Ret ZAny.
Proof.
  unfold convertJsonSchemaProperty at 1. rewrite fuel_step.
  destruct (negb (JS.truthy prop)); [reflexivity|].
  destruct prop; simpl; try reflexivity.
  set (ty := match JS.assoc "type" fields with Some x => x | None => JUndefined end).
  destruct (negb (JS.truthy ty)); [reflexivity|].
  repeat (match goal with |- context [if JS.is_str ty ?s then _ else _] =>
            destruct (JS.is_str ty s); [reflexivity|] end).
  destruct (JS.is_str ty "array").
  { destruct (JS.assoc "items" fields) as [items|] eqn:Hi; simpl; [|reflexivity].
    destruct (JS.truthy items); [|reflexivity].
    apply depth_field in Hi.
    rewrite convertJsonSchemaProperty_enough_fuel by lia. reflexivity. }
  destruct (JS.is_str ty "object"); [|reflexivity].
  unfold jsonSchemaToZod. apply jsonSchemaToZod_with_ext. intros v Hv.
  apply convertJsonSchemaProperty_enough_fuel. lia.
Qed.

Lemma build_shape_throw f props shape e :
  build_shape f props shape = Throw e ->
  exists kv, In kv props /\ f (snd kv) = Throw e.
Proof.
  revert shape. induction props as [|[k v] r IH]; simpl; intros shape H; [discriminate|].
  destruct (f v) as [z|e'] eqn:Hv; simpl in H.
  - destruct (IH _ H) as (kv & Hin & Hkv). exists kv. split; [now right|assumption].
  - injection H as ->. exists (k, v). split; [now left|assumption].
Qed.

Lemma mark_optional_throw required todo shape e :
  mark_optional required todo shape = Throw e -> e <> overflow.
Proof.
  revert shape. induction todo as [|k r IH]; simpl; intros shape H; [discriminate|].
  destruct (JS.includes required k) as [b|e'] eqn:Hi; simpl in H.
  - eapply IH, H.
  - injection H as ->. destruct required; simpl in Hi; try discriminate;
      injection Hi as <-; discriminate.
Qed.

Lemma jsonSchemaToZod_with_throw f j e :
  jsonSchemaToZod_with f j = Throw e ->
  e <> overflow \/ exists v, (depth v < depth j)%nat /\ f v = Throw e.
Proof.
  unfold jsonSchemaToZod_with.
  destruct (negb (JS.truthy j) || (length (JS.keys j) =? 0)%nat) eqn:Hg; [discriminate|].
  intros H. destruct j; simpl in H, Hg; try discriminate.
  destruct (JS.is_str _ "object") eqn:Hty; simpl in H; [|discriminate].
  destruct (JS.assoc "properties" fields) as [props|] eqn:Hp; simpl in H; [|discriminate].
  destruct (JS.truthy props); [|discriminate].
  destruct (build_shape f (JS.entries props) []) as [shape|e'] eqn:Hb; simpl in H.
  - match type of H with context [mark_optional ?a ?b ?c] =>
      destruct (mark_optional a b c) as [shape'|e'] eqn:Hm end; simpl in H; [discriminate|].
    injection H as ->. left. eapply mark_optional_throw, Hm.
  - injection H as ->. right. apply build_shape_throw in Hb as (kv & Hin & Hkv).
    exists (snd kv). split; [|assumption].
    eapply (depth_entries_of_field "properties"); eassumption.
Qed.

(** The bound on the call depth is never hit: the result is the one of
    the unbounded recursion of the source. *)
Lemma convertJsonSchemaProperty_no_overflow prop :
  convertJsonSchemaProperty prop <> Throw overflow.
Proof.
  unfold convertJsonSchemaProperty.
  assert (forall n p, (depth p < n)%nat ->
            convertJsonSchemaProperty_fuel n p <> Throw overflow) as H.
  2:{ apply H. lia. }
  clear prop. induction n as [|n IH]; intros p Hn; [lia|]. rewrite fuel_step.
  destruct (negb (JS.truthy p)); [discriminate|].
  destruct p; simpl; try discriminate.
  set (ty := match JS.assoc "type" fields with Some x => x | None => JUndefined end).
  destruct (negb (JS.truthy ty)); [discriminate|].
  repeat (match goal with |- context [if JS.is_str ty ?s then _ else _] =>
            destruct (JS.is_str ty s); [discriminate|] end).
  destruct (JS.is_str ty "array").
  { destruct (JS.assoc "items" fields) as [items|] eqn:Hi; simpl; [|discriminate].
    destruct (JS.truthy items); [|discriminate].
    apply depth_field in Hi.
    destruct (convertJsonSchemaProperty_fuel n items) as [z|e] eqn:Hz; simpl; [discriminate|].
    intros [= ->]. eapply (IH items); [lia|eassumption]. }
  destruct (JS.is_str ty "object"); [|discriminate].
  intros Hthrow. apply jsonSchemaToZod_with_throw in Hthrow as [Hne|(v & Hv & Hf)].
  - now apply Hne.
  - eapply (IH v); [lia|eassumption].
Qed.

End TranslatorFacts.

(** ** Qualified names *)

Module NameFacts.
Import Client.

Lemma replace_nonword_word_only s : word_only (replace_nonword s) = true.
Proof.
  induction s as [|c r IH]; simpl; [reflexivity|].
  rewrite IH, andb_true_r. destruct (is_word_char c) eqn:Hc; [assumption|reflexivity].
Qed.

Lemma replace_nonword_fixed s : word_only s = true -> replace_nonword s = s.
Proof.
  induction s as [|c r IH]; simpl; [reflexivity|].
  intros [Hc Hr]%andb_true_iff. rewrite Hc, IH by assumption. reflexivity.
Qed.

Lemma replace_nonword_idempotent s :
  replace_nonword (replace_nonword s) = replace_nonword s.
Proof. apply replace_nonword_fixed, replace_nonword_word_only. Qed.

Lemma replace_nonword_length s : String.length (replace_nonword s) = String.length s.
Proof. induction s as [|c r IH]; simpl; congruence. Qed.

Lemma word_only_app a b : word_only (a +:+ b) = word_only a && word_only b.
Proof.
  induction a as [|c r IH]; simpl; [reflexivity|]. rewrite IH. apply andb_assoc.
Qed.

Lemma length_app a b : String.length (a +:+ b) = (String.length a + String.length b)%nat.
Proof. induction a as [|c r IH]; simpl; congruence. Qed.

Lemma app_inj_same_length a1 b1 a2 b2 :
  String.length a1 = String.length a2 ->
  a1 +:+ b1 = a2 +:+ b2 -> a1 = a2 /\ b1 = b2.
Proof.
  revert a2. induction a1 as [|c r IH]; intros [|c' r']; simpl; try discriminate.
  - auto.
  - intros [= Hlen] [= -> Happ]. destruct (IH _ Hlen Happ) as [-> ->]. auto.
Qed.

End NameFacts.

(** C5, the naming part and what holds of uniqueness: the [name] of a
    converted tool is [<connectionName>_<toolName>] with every character
    outside [[a-zA-Z0-9_]] replaced by an underscore; it contains only such
    characters, has the length of its two parts plus one, and replacing
    again changes nothing.  Two pairs whose parts are made of
    [[a-zA-Z0-9_]] only and whose source identifiers have the same length
    (as for two tools of one source) get the same name only if they are the
    same pair. *)
Theorem qualified_name_characterised (connectionName toolName : string) :
  (forall fields z,
      JS.assoc "name" fields = Some (JStr toolName) ->
      Translator.jsonSchemaToZod
        (JS.or (match JS.assoc "inputSchema" fields with Some x => x | None => JUndefined end)
               (JObj [])) = Ret z ->
      exists t, Client.convertToAiSdkTool (JObj fields) connectionName = Ret t
                /\ name t = Client.qualifiedName connectionName toolName)
  /\ Client.qualifiedName connectionName toolName
     = Client.replace_nonword (connectionName +:+ "_" +:+ toolName)
  /\ word_only (Client.qualifiedName connectionName toolName) = true
  /\ String.length (Client.qualifiedName connectionName toolName)
     = (String.length connectionName + 1 + String.length toolName)%nat
  /\ Client.replace_nonword (Client.qualifiedName connectionName toolName)
     = Client.qualifiedName connectionName toolName
  /\ (forall connectionName' toolName',
        word_only connectionName = true -> word_only toolName = true ->
        word_only connectionName' = true -> word_only toolName' = true ->
        String.length connectionName = String.length connectionName' ->
        Client.qualifiedName connectionName toolName
          = Client.qualifiedName connectionName' toolName' ->
        connectionName = connectionName' /\ toolName = toolName').
Proof.
  split; [|split; [|split; [|split; [|split]]]].
  - intros fields z Hname Hschema. unfold Client.convertToAiSdkTool. simpl.
    rewrite Hschema, Hname. simpl. eexists. split; reflexivity.
  - reflexivity.
  - apply NameFacts.replace_nonword_word_only.
  - unfold Client.qualifiedName. rewrite NameFacts.replace_nonword_length.
    rewrite !NameFacts.length_app. simpl. lia.
  - apply NameFacts.replace_nonword_idempotent.
  - intros c' t' Hc Ht Hc' Ht' Hlen Heq. unfold Client.qualifiedName in Heq.
    rewrite !NameFacts.replace_nonword_fixed in Heq
      by (rewrite !NameFacts.word_only_app; simpl;
          rewrite ?Hc, ?Ht, ?Hc', ?Ht'; reflexivity).
    apply NameFacts.app_inj_same_length in Heq as [-> [= ->]]; auto.
Qed.

(** The example of the spec: source ["you mcp!"], tool ["web-search"] *)
Lemma qualified_name_characterised_witness :
  (exists t, Client.convertToAiSdkTool (JObj [("name", JStr "web-search")]) "you mcp!" = Ret t
             /\ name t = "you_mcp__web_search")
  /\ ("you_mcp" = "you_mcp" /\ "web_search" = "web_search").
Proof.
  split.
  - destruct (qualified_name_characterised "you mcp!" "web-search") as (H & _).
    apply (H [("name", JStr "web-search")] (ZObject [] Passthrough)); reflexivity.
  - destruct (qualified_name_characterised "you_mcp" "web_search")
      as (_ & _ & _ & _ & _ & H).
    apply (H "you_mcp" "web_search"); reflexivity.
Defined.

(** C5 as stated fails: two different tool names of one source are given
    one qualified name. *)
Lemma qualified_name_collision :
  ("you_mcp", "web-search") <> ("you_mcp", "web_search")
  /\ (exists t1 t2,
        Client.convertToAiSdkTool (JObj [("name", JStr "web-search")]) "you_mcp" = Ret t1
        /\ Client.convertToAiSdkTool (JObj [("name", JStr "web_search")]) "you_mcp" = Ret t2
        /\ name t1 = name t2)
  /\ Client.qualifiedName "you_mcp" "web-search" = Client.qualifiedName "you_mcp" "web_search"
  /\ Client.qualifiedName "a_b" "c" = Client.qualifiedName "a" "b_c".
Proof.
  split; [discriminate|]. split; [|split; reflexivity].
  eexists. eexists. repeat split; reflexivity.
Qed.

(** ** The object rule of the translator *)

Module ShapeFacts.
Import Translator.

Lemma assoc_set_eq {A} k (v : A) l : JS.assoc k (JS.set k v l) = Some v.
Proof.
  induction l as [|[k' v'] r IH]; simpl.
  - now rewrite String.eqb_refl.
  - destruct (String.eqb k k') eqn:E; simpl; rewrite ?String.eqb_refl, ?E; auto.
Qed.

Lemma assoc_set_ne {A} k k' (v : A) l :
  k <> k' -> JS.assoc k (JS.set k' v l) = JS.assoc k l.
Proof.
  intros Hne. induction l as [|[k2 v2] r IH]; simpl.
  - apply String.eqb_neq in Hne. now rewrite Hne.
  - destruct (String.eqb k' k2) eqn:E; simpl.
    + apply String.eqb_eq in E as <-. apply String.eqb_neq in Hne. now rewrite Hne.
    + destruct (String.eqb k k2); auto.
Qed.

Lemma keys_set_present {A} k (v v' : A) l :
  JS.assoc k l = Some v' -> map fst (JS.set k v l) = map fst l.
Proof.
  induction l as [|[k2 v2] r IH]; simpl; [discriminate|].
  destruct (String.eqb k k2) eqn:E; simpl.
  - apply String.eqb_eq in E as <-. reflexivity.
  - intros H. now rewrite IH.
Qed.

Lemma assoc_In {A} k (v : A) l : JS.assoc k l = Some v -> In (k, v) l.
Proof.
  induction l as [|[k2 v2] r IH]; simpl; [discriminate|].
  destruct (String.eqb k k2) eqn:E.
  - apply String.eqb_eq in E as <-. intros [= ->]. now left.
  - intros H. right. auto.
Qed.

Lemma assoc_keys {A} k (v : A) l : JS.assoc k l = Some v -> In k (map fst l).
Proof. intros H. apply assoc_In in H. now apply (in_map fst) in H. Qed.

(** Every entry of the shape built by the first loop is the conversion of
    a property of that name. *)
Lemma build_shape_entries convert props : forall shape0 shape,
  build_shape convert props shape0 = Ret shape ->
  forall k z, JS.assoc k shape = Some z ->
    JS.assoc k shape0 = Some z
    \/ exists v, In (k, v) props /\ convert v = Ret z.
Proof.
  induction props as [|[key value] rest IH]; simpl; intros shape0 shape H k z Hk.
  - injection H as <-. now left.
  - destruct (convert value) as [zv|e] eqn:Hv; simpl in H; [|discriminate].
    destruct (IH _ _ H k z Hk) as [Hin|(v & Hin & Hc)].
    + destruct (String.eqb_spec k key) as [->|Hne].
      * rewrite assoc_set_eq in Hin. injection Hin as <-.
        right. exists value. split; [now left|assumption].
      * rewrite assoc_set_ne in Hin by assumption. now left.
    + right. exists v. split; [now right|assumption].
Qed.

(** The second loop wraps exactly the entries whose key is not included
    in [required], once. *)
Lemma mark_optional_entries required : forall todo shape shape',
  List.NoDup todo ->
  mark_optional required todo shape = Ret shape' ->
  forall k z, JS.assoc k shape = Some z ->
    (In k todo -> JS.includes required k = Ret false ->
       JS.assoc k shape' = Some (ZOptional z))
    /\ (~ In k todo \/ JS.includes required k = Ret true ->
       JS.assoc k shape' = Some z).
Proof.
  induction todo as [|key rest IH]; simpl; intros shape shape' Hnd H k z Hk.
  - injection H as <-. split; [tauto|auto].
  - inversion Hnd as [|? ? Hnotin Hnd']; subst.
    destruct (JS.includes required key) as [inc|e] eqn:Hinc; simpl in H; [|discriminate].
    destruct (String.eqb_spec k key) as [->|Hne].
    + destruct inc.
      * destruct (IH _ _ Hnd' H key z Hk) as [_ Hkeep]. split.
        -- intros _ Hf. congruence.
        -- intros _. apply Hkeep. now left.
      * rewrite Hk in H.
        destruct (IH _ _ Hnd' H key (ZOptional z) (assoc_set_eq _ _ _)) as [_ Hkeep].
        split.
        -- intros _ _. apply Hkeep. now left.
        -- intros [Hn|Ht]; [exfalso; apply Hn; now left|congruence].
    + assert (JS.assoc k (if inc then shape
                          else match JS.assoc key shape with
                               | Some z0 => JS.set key (ZOptional z0) shape
                               | None => shape
                               end) = Some z) as Hk'.
      { destruct inc; [assumption|].
        destruct (JS.assoc key shape); [|assumption].
        now rewrite assoc_set_ne. }
      destruct (IH _ _ Hnd' H k z Hk') as [Hopt Hkeep]. split.
      * intros [->|Hin]; [congruence|]. auto.
      * intros [Hn|Ht]; apply Hkeep; [left; intros Hin; apply Hn; now right|now right].
Qed.

Lemma mark_optional_keys required : forall todo shape shape',
  mark_optional required todo shape = Ret shape' ->
  map fst shape' = map fst shape.
Proof.
  induction todo as [|key rest IH]; simpl; intros shape shape' H.
  - now injection H as <-.
  - destruct (JS.includes required key) as [inc|e]; simpl in H; [|discriminate].
    rewrite (IH _ _ H). destruct inc; [reflexivity|].
    destruct (JS.assoc key shape) eqn:Hk; [|reflexivity].
    eapply keys_set_present, Hk.
Qed.

Lemma set_keys_NoDup {A} k (v : A) l :
  List.NoDup (map fst l) -> List.NoDup (map fst (JS.set k v l)).
Proof.
  destruct (JS.assoc k l) as [v'|] eqn:Hk.
  - now rewrite (keys_set_present _ _ _ _ Hk).
  - intros Hnd. induction l as [|[k2 v2] r IH]; simpl.
    + constructor; [intros []|constructor].
    + simpl in Hk. destruct (String.eqb k k2) eqn:E; [discriminate|]. simpl.
      inversion Hnd as [|? ? Hnotin Hnd']; subst. constructor; [|auto].
      intros Hin. apply Hnotin. clear IH Hnd Hnotin Hnd'.
      induction r as [|[k3 v3] r IHr]; simpl in *.
      * destruct Hin as [->|[]]. now rewrite String.eqb_refl in E.
      * destruct (String.eqb k k3) eqn:E3; simpl in *.
        -- apply String.eqb_eq in E3 as <-. discriminate.
        -- destruct Hin as [->|Hin]; [now left|right; auto].
Qed.

Lemma build_shape_NoDup convert props : forall shape0 shape,
  build_shape convert props shape0 = Ret shape ->
  List.NoDup (map fst shape0) -> List.NoDup (map fst shape).
Proof.
  induction props as [|[key value] rest IH]; simpl; intros shape0 shape H Hnd.
  - now injection H as <-.
  - destruct (convert value) as [zv|e]; simpl in H; [|discriminate].
    eapply IH; [eassumption|]. now apply set_keys_NoDup.
Qed.

End ShapeFacts.

Module TranslateFacts.
Import Translator ShapeFacts.

Lemma filter_all {A} (l : list A) : List.filter (fun _ => true) l = l.
Proof. induction l as [|x r IH]; simpl; congruence. Qed.

Lemma build_shape_total convert props : forall shape0,
  (forall kv, In kv props -> exists z, convert (snd kv) = Ret z) ->
  exists shape, build_shape convert props shape0 = Ret shape.
Proof.
  induction props as [|[key value] rest IH]; simpl; intros shape0 H; [eauto|].
  destruct (H (key, value) (or_introl eq_refl)) as [z Hz]. simpl in Hz. rewrite Hz. simpl.
  apply IH. intros kv Hin. apply H. now right.
Qed.

Lemma mark_optional_total elems : forall todo shape,
  exists shape', mark_optional (JArr elems) todo shape = Ret shape'.
Proof. induction todo as [|key rest IH]; simpl; intros shape; eauto. Qed.

(** The object rule: a schema with [type: "object"], truthy [properties]
    and a [required] that is an array (or absent) translates, as soon as
    its properties do, to an object schema in which a property is wrapped
    as optional exactly when [required] does not list it. *)
Lemma object_rule fields props required :
  JS.assoc "type" fields = Some (JStr "object") ->
  JS.assoc "properties" fields = Some props ->
  JS.truthy props = true ->
  required_array fields = Some required ->
  (forall kv, In kv (JS.entries props) ->
     exists z, convertJsonSchemaProperty (snd kv) = Ret z) ->
  exists shape,
    jsonSchemaToZod (JObj fields) = Ret (ZObject shape Strip)
    /\ forall k zk, JS.assoc k shape = Some zk ->
         exists v z, In (k, v) (JS.entries props)
                     /\ convertJsonSchemaProperty v = Ret z
                     /\ zk = if listed required k then z else ZOptional z.
Proof.
  intros Hty Hprops Htruthy Hreq Hconv.
  unfold jsonSchemaToZod, jsonSchemaToZod_with.
  assert (negb (JS.truthy (JObj fields)) || (length (JS.keys (JObj fields)) =? 0)%nat
          = false) as ->.
  { destruct fields; [discriminate|reflexivity]. }
  simpl. rewrite Hty, Hprops. simpl. rewrite Htruthy.
  destruct (build_shape_total convertJsonSchemaProperty (JS.entries props) [] Hconv)
    as [shape Hshape].
  rewrite Hshape. simpl.
  unfold required_array in Hreq.
  destruct (JS.or _ (JArr [])) as [| | | | |elems|] eqn:Hor; try discriminate.
  injection Hreq as ->.
  destruct (mark_optional_total required (map fst shape) shape) as [shape' Hmark].
  rewrite Hmark. simpl. exists shape'. split; [reflexivity|].
  intros k zk Hk.
  assert (List.NoDup (map fst shape)) as Hnd.
  { eapply build_shape_NoDup; [eassumption|constructor]. }
  assert (exists z, JS.assoc k shape = Some z) as [z Hz].
  { pose proof (assoc_keys _ _ _ Hk) as Hin.
    rewrite (mark_optional_keys _ _ _ _ Hmark) in Hin.
    clear -Hin. induction shape as [|[k2 v2] r IH]; simpl in *; [tauto|].
    destruct (String.eqb_spec k k2); [eauto|].
    destruct Hin as [->|Hin]; [congruence|auto]. }
  destruct (build_shape_entries _ _ _ _ Hshape k z Hz) as [Hnil|(v & Hin & Hv)];
    [discriminate|].
  exists v, z. split; [assumption|]. split; [assumption|].
  destruct (mark_optional_entries _ _ _ _ Hnd Hmark k z Hz) as [Hopt Hkeep].
  unfold listed. destruct (existsb _ required) eqn:Hl.
  - rewrite Hkeep in Hk by (right; simpl; now rewrite Hl). congruence.
  - rewrite Hopt in Hk; [congruence| |simpl; now rewrite Hl].
    eapply assoc_keys, Hz.
Qed.

Lemma q_zod_parse is_url fields :
  zod_parse is_url q_zod (JObj fields)
  = match JS.assoc "q" fields with
    | Some (JStr s) => Some (JObj [("q", JStr s)])
    | _ => None
    end.
Proof.
  simpl. destruct (JS.assoc "q" fields) as [[]|]; reflexivity.
Qed.

End TranslateFacts.

(** C6: both test vectors of the schema translator.  The empty and the
    absent descriptor give [z.object({}).passthrough()], which accepts any
    object and keeps all its properties.  The descriptor
    [{type:"object", properties:{q:{type:"string"}}, required:["q"]}]
    gives an object schema that accepts exactly the objects whose [q] is a
    string, so a payload without [q] is rejected.  A property that
    [required] does not list is wrapped as optional, and an optional
    property may be absent. *)
Theorem translate_test_vectors (is_url : string -> bool) :
  Translator.jsonSchemaToZod (JObj []) = Ret (ZObject [] Passthrough)
  /\ Translator.jsonSchemaToZod JUndefined = Ret (ZObject [] Passthrough)
  /\ (forall fields,
        zod_parse is_url (ZObject [] Passthrough) (JObj fields) = Some (JObj fields))
  /\ Translator.jsonSchemaToZod q_schema = Ret q_zod
  /\ (forall fields,
        JS.assoc "q" fields = None -> zod_parse is_url q_zod (JObj fields) = None)
  /\ (forall payload,
        zod_accepts is_url q_zod payload = true
        <-> exists fields s, payload = JObj fields /\ JS.assoc "q" fields = Some (JStr s))
  /\ (forall fields props required,
        JS.assoc "type" fields = Some (JStr "object") ->
        JS.assoc "properties" fields = Some props ->
        JS.truthy props = true ->
        required_array fields = Some required ->
        (forall kv, In kv (JS.entries props) ->
           exists z, Translator.convertJsonSchemaProperty (snd kv) = Ret z) ->
        exists shape,
          Translator.jsonSchemaToZod (JObj fields) = Ret (ZObject shape Strip)
          /\ forall k zk, JS.assoc k shape = Some zk -> listed required k = false ->
               (exists z, zk = ZOptional z)
               /\ zod_parse is_url zk JUndefined = Some JUndefined).
Proof.
  split; [reflexivity|]. split; [reflexivity|].
  split; [intros fields; simpl; now rewrite TranslateFacts.filter_all|].
  split; [reflexivity|].
  split; [intros fields H; rewrite TranslateFacts.q_zod_parse; now rewrite H|].
  split.
  - intros payload. unfold zod_accepts. split.
    + destruct payload; try discriminate.
      rewrite TranslateFacts.q_zod_parse.
      destruct (JS.assoc "q" fields) as [[]|] eqn:Hq; try discriminate. eauto.
    + intros (fields & s & -> & Hq). rewrite TranslateFacts.q_zod_parse, Hq. reflexivity.
  - intros fields props required Hty Hprops Htruthy Hreq Hconv.
    destruct (TranslateFacts.object_rule _ _ _ Hty Hprops Htruthy Hreq Hconv)
      as (shape & Hret & Hshape).
    exists shape. split; [assumption|].
    intros k zk Hk Hl. destruct (Hshape _ _ Hk) as (v & z & _ & _ & ->).
    rewrite Hl. split; [eauto|reflexivity].
Qed.

(** A schema with a required [q] and an unlisted [limit] *)
Lemma translate_test_vectors_witness :
  (exists shape,
     Translator.jsonSchemaToZod
       (JObj [("type", JStr "object");
              ("properties", JObj [("q", JObj [("type", JStr "string")]);
                                   ("limit", JObj [("type", JStr "integer")])]);
              ("required", JArr [JStr "q"])])
     = Ret (ZObject shape Strip)
     /\ forall k zk, JS.assoc k shape = Some zk -> listed [JStr "q"] k = false ->
          (exists z, zk = ZOptional z)
          /\ zod_parse (fun _ => true) zk JUndefined = Some JUndefined)
  /\ zod_parse (fun _ => true) q_zod (JObj [("limit", JNum 3)]) = None.
Proof.
  destruct (translate_test_vectors (fun _ => true)) as (_ & _ & _ & _ & Hq & _ & H).
  split.
  - apply (H _ (JObj [("q", JObj [("type", JStr "string")]);
                      ("limit", JObj [("type", JStr "integer")])])); try reflexivity.
    intros kv [<-|[<-|[]]]; eexists; reflexivity.
  - apply Hq. reflexivity.
Defined.

(** ** Discovery and its cache *)

Module DiscoveryFacts.
Import Client.

Ltac run :=
  unfold listTools, getAuthHeaders, getBaseUrl, Date_now, fetch,
         try_catch, bind, ret, throw, lift, gets, modify,
         set_world, set_client, set_provider in *;
  simpl in *; cbn [provider client world] in *.

(** [cacheTools] sets both entries, and then returns or raises as the
    count of the tools can be written or not. *)
Lemma cacheTools_run name tools p c w :
  exists r,
    cacheTools name tools {| provider := p; client := c; world := w |}
    = (r, {| provider := p;
             client := {| cachedTools := <[name := tools]> (cachedTools c);
                          toolCacheExpiry :=
                            <[name := (clock w + CACHE_DURATION)%N]> (toolCacheExpiry c) |};
             world := w |})
    /\ match r with
       | Ret _ => countable tools = true
       | Throw _ => countable tools = false
       end.
Proof.
  unfold cacheTools, countable, Date_now, bind, gets, modify, lift, ret, set_client, obind.
  cbn [provider client world].
  destruct (JS.length_of tools) as [count|e]; [|eexists; split; reflexivity].
  destruct (JS.toString count) as [shown|e]; eexists; split; reflexivity.
Qed.

#[local] Arguments cacheTools : simpl never.

(** [listTools] on a cache hit: the cached value, and nothing else
    happens. *)
Lemma listTools_hit name s c :
  cache_hit name s = true ->
  cachedTools (client s) !! name = Some c ->
  listTools name s = (Ret c, s).
Proof.
  unfold cache_hit. intros Hhit Hc. run. rewrite Hhit, Hc. reflexivity.
Qed.

(** [listTools] on a cache miss sends one request and waits for the
    answer; what it returns and stores depends on the answer alone. *)
Lemma listTools_miss name s :
  cache_hit name s = false ->
  exists v c,
    listTools name s
    = (Ret v, {| provider := provider s; client := c;
                 world := after_fetch (list_request name (world s)) (world s) |})
    /\ (discovery_fails (network (world s)) = true -> v = JArr [])
    /\ (discovery_aborts (network (world s)) = true -> c = client s)
    /\ (discovery_aborts (network (world s)) = false ->
        exists stored,
          JS.truthy stored = true
          /\ c = {| cachedTools := <[name := stored]> (cachedTools (client s));
                    toolCacheExpiry :=
                      <[name := (clock (after_fetch (list_request name (world s)) (world s))
                                 + CACHE_DURATION)%N]> (toolCacheExpiry (client s)) |}
          /\ v = (if countable stored then stored else JArr [])
          /\ (discovery_fails (network (world s)) = true -> stored = JArr [])).
Proof.
  unfold cache_hit. intros Hmiss. run. rewrite Hmiss.
  unfold after_fetch, list_request.
  destruct s as [p c w]; simpl in *.
  destruct (network w) as [|x rest] eqn:Hnet; simpl.
  { exists (JArr []), c. repeat split; auto; discriminate. }
  destruct (result x) as [e|r] eqn:Hres; simpl.
  { exists (JArr []), c. repeat split; auto; discriminate. }
  destruct (ok r) eqn:Hok; simpl.
  2:{ destruct (text r); exists (JArr []), c; repeat split; auto; discriminate. }
  destruct (json r) as [data|e] eqn:Hjson; simpl.
  2:{ exists (JArr []), c. repeat split; auto; discriminate. }
  destruct data as [| | b | n | str | elems | fields]; simpl;
    try (exists (JArr []), c; repeat split; auto; discriminate).
  all: try (destruct (JS.assoc "tools" fields) as [dt|] eqn:Hdt; simpl;
            unfold JS.has_key; rewrite ?Hdt; simpl;
            [destruct (JS.truthy dt) eqn:Ht|]).
  all: first
    [ match goal with
      | |- context [cacheTools ?n ?t {| provider := ?p0; client := ?c0; world := ?w0 |}] =>
          destruct (cacheTools_run n t p0 c0 w0) as (o & Hrun & Ho); rewrite Hrun; clear Hrun;
          exists (if countable t then t else JArr []); eexists;
          split; [destruct o; rewrite Ho; reflexivity|];
          split; [try discriminate; intros _; reflexivity|];
          split; [discriminate|];
          intros _; exists t; repeat split; try assumption; try discriminate
      end
    | eexists; eexists; split; [reflexivity|];
      split; [try discriminate; intros _; reflexivity|];
      split; [discriminate|];
      intros _; eexists; split; [|split; [reflexivity|split; [reflexivity|]]];
      [reflexivity|try discriminate; intros _; reflexivity] ].
Qed.

Lemma cache_hit_cached name s :
  cache_hit name s = true ->
  exists c e, cachedTools (client s) !! name = Some c
              /\ toolCacheExpiry (client s) !! name = Some e
              /\ JS.truthy c = true /\ (clock (world s) < e)%N.
Proof.
  unfold cache_hit, cache_is_fresh.
  destruct (cachedTools (client s) !! name) as [c|]; [|discriminate].
  destruct (toolCacheExpiry (client s) !! name) as [e|]; [|discriminate].
  intros [[Ht _]%andb_true_iff Hlt%N.ltb_lt]%andb_true_iff.
  exists c, e. repeat split; assumption.
Qed.

(** [listTools] never raises. *)
Lemma listTools_returns name s : exists v s', listTools name s = (Ret v, s').
Proof.
  destruct (cache_hit name s) eqn:Hhit.
  - destruct (cache_hit_cached _ _ Hhit) as (c & e & Hc & _).
    rewrite (listTools_hit _ _ _ Hhit Hc). eauto.
  - destruct (listTools_miss _ _ Hhit) as (v & c & -> & _). eauto.
Qed.

End DiscoveryFacts.

(** C2: [listTools] never raises; when the cache cannot answer it sends
    exactly one request to the registry, and if that round trip fails (a
    transport error, a status outside 200..299, a body that is not JSON or
    is malformed) it returns the empty array. *)
Theorem listTools_never_raises (connectionName : string) (s : State) :
  (exists v, result_of (Client.listTools connectionName) s = Ret v)
  /\ (cache_hit connectionName s = false ->
      sent (world (state_after (Client.listTools connectionName) s))
      = sent (world s) ++ [list_request connectionName (world s)])
  /\ (cache_hit connectionName s = false ->
      discovery_fails (network (world s)) = true ->
      result_of (Client.listTools connectionName) s = Ret (JArr [])).
Proof.
  unfold result_of, state_after. split; [|split].
  - destruct (DiscoveryFacts.listTools_returns connectionName s) as (v & s' & ->). eauto.
  - intros Hmiss.
    destruct (DiscoveryFacts.listTools_miss _ _ Hmiss) as (v & c & -> & _). reflexivity.
  - intros Hmiss Hfail.
    destruct (DiscoveryFacts.listTools_miss _ _ Hmiss) as (v & c & -> & Hv & _).
    simpl. now rewrite Hv.
Qed.

(** A registry that answers 503 *)
Lemma listTools_never_raises_witness :
  let s := boot (sample_world [refusal]) in
  sent (world (state_after (Client.listTools "you_mcp") s))
    = [list_request "you_mcp" (world s)]
  /\ result_of (Client.listTools "you_mcp") s = Ret (JArr []).
Proof.
  intros s.
  destruct (listTools_never_raises "you_mcp" s) as (_ & Hsent & Hempty).
  split; [apply Hsent|apply Hempty]; reflexivity.
Defined.

(** C3 as stated fails: a 200 response whose body is an object without a
    [tools] field is a malformed body, yet [listTools] stores the empty
    array under the source with a full time to live; the next discovery is
    answered from that entry and never reaches the registry, which by then
    would have offered a tool. *)
Lemma malformed_body_is_cached :
  let s := boot (sample_world [answer (JObj [("error", JStr "registry warming up")]);
                               answer (JArr [JObj [("name", JStr "web_search")]])]) in
  let s' := state_after (Client.listTools "you_mcp") s in
  cache_hit "you_mcp" s = false
  /\ discovery_fails (network (world s)) = true
  /\ cachedTools (client s) !! "you_mcp" = None
  /\ cachedTools (client s') !! "you_mcp" = Some (JArr [])
  /\ toolCacheExpiry (client s') !! "you_mcp" = Some 1700000300040%N
  /\ client s' <> client s
  /\ Client.listTools "you_mcp" s' = (Ret (JArr []), s').
Proof.
  vm_compute. repeat split; try reflexivity.
  intros H. discriminate H.
Qed.

Module CacheFacts.

(** An entry that cannot answer now cannot answer later either. *)
Lemma stale_stays_stale cached expiry now later :
  (now <= later)%N ->
  Client.cache_is_fresh cached expiry now = false ->
  Client.cache_is_fresh cached expiry later = false.
Proof.
  unfold Client.cache_is_fresh. intros Hle.
  destruct cached as [c|]; [|reflexivity]. destruct expiry as [e|]; [|reflexivity].
  destruct (JS.truthy c && negb (e =? 0)%N); simpl; [|reflexivity].
  intros Hlt%N.ltb_ge. apply N.ltb_ge. lia.
Qed.

End CacheFacts.

(** C3, as the code has it: a discovery that fails by a transport error,
    a status outside 200..299, a body that is not JSON, or the body
    [null] leaves the cache as it was, so the next discovery of that
    source misses again.  A body that parses but is neither an object with
    a [tools] field nor an array counts as a registry without tools: the
    empty array is stored under the source, to expire [CACHE_DURATION]
    after the response arrived. *)
Theorem failed_discovery_and_cache (connectionName : string) (s : State) :
  cache_hit connectionName s = false ->
  let s' := state_after (Client.listTools connectionName) s in
  (discovery_aborts (network (world s)) = true ->
     client s' = client s /\ cache_hit connectionName s' = false)
  /\ (discovery_fails (network (world s)) = true ->
      discovery_aborts (network (world s)) = false ->
      client s'
      = {| cachedTools := <[connectionName := JArr []]> (cachedTools (client s));
           toolCacheExpiry :=
             <[connectionName := (clock (world s') + Client.CACHE_DURATION)%N]>
               (toolCacheExpiry (client s)) |}).
Proof.
  intros Hmiss s'. subst s'. unfold state_after.
  destruct (DiscoveryFacts.listTools_miss _ _ Hmiss) as (v & c & -> & Hv & Habort & Hstore).
  simpl. split.
  - intros Ha. rewrite (Habort Ha). split; [reflexivity|].
    unfold cache_hit in *. simpl.
    eapply CacheFacts.stale_stays_stale; [|exact Hmiss].
    simpl. destruct (network (world s)); lia.
  - intros Hf Ha. destruct (Hstore Ha) as (stored & _ & -> & _ & Hs). now rewrite (Hs Hf).
Qed.

(** A registry that answers 503: nothing is stored *)
Lemma failed_discovery_and_cache_witness :
  (let s := boot (sample_world [refusal]) in
   client (state_after (Client.listTools "you_mcp") s) = client s
   /\ cache_hit "you_mcp" (state_after (Client.listTools "you_mcp") s) = false)
  /\ (let s := boot (sample_world [answer (JObj [("error", JStr "registry warming up")])]) in
      client (state_after (Client.listTools "you_mcp") s)
      = {| cachedTools := <["you_mcp" := JArr []]> (cachedTools (client s));
           toolCacheExpiry :=
             <["you_mcp" := (clock (world (state_after (Client.listTools "you_mcp") s))
                             + Client.CACHE_DURATION)%N]> (toolCacheExpiry (client s)) |}).
Proof.
  split.
  - intros s. destruct (failed_discovery_and_cache "you_mcp" s eq_refl) as (H & _).
    apply H. reflexivity.
  - intros s. destruct (failed_discovery_and_cache "you_mcp" s eq_refl) as (_ & H).
    apply H; reflexivity.
Defined.

(** C7: a cached entry whose expiry lies strictly in the future answers
    the discovery: the cached array is returned and nothing else happens,
    no request in particular.  A discovery that reaches the registry and
    gets tools back stores them to expire [CACHE_DURATION] = 5 minutes
    after the moment the response arrived, and what it stores can answer
    later.  The call returns what it stored whenever that is an array (in
    general, whenever its [length] can be written to the log; otherwise
    the call returns the empty array and the entry stays).  Without an
    entry, or with one that has expired, the discovery sends a request. *)
Theorem listTools_cache (connectionName : string) (s : State) :
  (forall elems expiry,
      cachedTools (client s) !! connectionName = Some (JArr elems) ->
      toolCacheExpiry (client s) !! connectionName = Some expiry ->
      (clock (world s) < expiry)%N ->
      Client.listTools connectionName s = (Ret (JArr elems), s))
  /\ Client.CACHE_DURATION = (5 * 60 * 1000)%N
  /\ (cache_hit connectionName s = false ->
      discovery_aborts (network (world s)) = false ->
      let s' := state_after (Client.listTools connectionName) s in
      exists stored,
        JS.truthy stored = true
        /\ cachedTools (client s') !! connectionName = Some stored
        /\ toolCacheExpiry (client s') !! connectionName
           = Some (clock (world s') + 300000)%N
        /\ match network (world s) with
           | x :: _ => clock (world s') = (clock (world s) + elapsed x)%N
           | [] => False
           end
        /\ result_of (Client.listTools connectionName) s
           = Ret (if countable stored then stored else JArr [])
        /\ (JS.isArray stored = true ->
            result_of (Client.listTools connectionName) s = Ret stored))
  /\ (cachedTools (client s) !! connectionName = None
      \/ toolCacheExpiry (client s) !! connectionName = None
      \/ (exists expiry, toolCacheExpiry (client s) !! connectionName = Some expiry
                         /\ (expiry <= clock (world s))%N) ->
      sent (world (state_after (Client.listTools connectionName) s))
      = sent (world s) ++ [list_request connectionName (world s)]).
Proof.
  split; [|split; [reflexivity|split]].
  - intros elems expiry Hc He Hlt. apply DiscoveryFacts.listTools_hit; [|assumption].
    unfold cache_hit, Client.cache_is_fresh. rewrite Hc, He. simpl.
    apply andb_true_iff. split; [|now apply N.ltb_lt].
    apply negb_true_iff, N.eqb_neq. lia.
  - intros Hmiss Ha s'. subst s'. unfold state_after, result_of.
    destruct (DiscoveryFacts.listTools_miss _ _ Hmiss) as (v & c & -> & _ & _ & Hstore).
    destruct (Hstore Ha) as (stored & Ht & -> & -> & _). simpl. exists stored.
    split; [assumption|].
    split; [apply lookup_insert_eq|]. split; [apply lookup_insert_eq|].
    split; [destruct (network (world s)); [discriminate Ha|reflexivity]|].
    split; [reflexivity|].
    destruct stored; try discriminate. reflexivity.
  - intros H.
    assert (cache_hit connectionName s = false) as Hmiss.
    { unfold cache_hit, Client.cache_is_fresh.
      destruct H as [->|[->|(e & -> & Hle)]].
      - reflexivity.
      - now destruct (cachedTools (client s) !! connectionName).
      - destruct (cachedTools (client s) !! connectionName); [|reflexivity].
        apply andb_false_iff. right. now apply N.ltb_ge. }
    unfold state_after.
    destruct (DiscoveryFacts.listTools_miss _ _ Hmiss) as (v & c & -> & _). reflexivity.
Qed.

(** The second of two discoveries in a row is answered from the cache *)
Lemma listTools_cache_witness :
  let tools := [JObj [("name", JStr "web_search")]] in
  let s0 := boot (sample_world [answer (JObj [("tools", JArr tools)])]) in
  let s := state_after (Client.listTools "you_mcp") s0 in
  Client.listTools "you_mcp" s = (Ret (JArr tools), s)
  /\ (exists stored,
        JS.truthy stored = true
        /\ cachedTools (client s) !! "you_mcp" = Some stored
        /\ toolCacheExpiry (client s) !! "you_mcp" = Some (clock (world s) + 300000)%N
        /\ clock (world s) = (clock (world s0) + 40)%N
        /\ result_of (Client.listTools "you_mcp") s0
           = Ret (if countable stored then stored else JArr [])
        /\ (JS.isArray stored = true ->
            result_of (Client.listTools "you_mcp") s0 = Ret stored))
  /\ sent (world s) = sent (world s0) ++ [list_request "you_mcp" (world s0)].
Proof.
  intros tools s0 s. split; [|split].
  - destruct (listTools_cache "you_mcp" s) as (H & _).
    apply (H tools 1700000300040%N); reflexivity.
  - destruct (listTools_cache "you_mcp" s0) as (_ & _ & H & _).
    apply H; reflexivity.
  - destruct (listTools_cache "you_mcp" s0) as (_ & _ & _ & H).
    apply H. left. reflexivity.
Defined.

(** ** The catalog life cycle *)

Module LifecycleFacts.

Lemma extends_refl w : extends w w.
Proof. repeat split. exists []. now rewrite app_nil_r. Qed.

Lemma extends_trans w1 w2 w3 : extends w1 w2 -> extends w2 w3 -> extends w1 w3.
Proof.
  intros (E1 & C1 & T1 & H1 & m1 & S1) (E2 & C2 & T2 & H2 & m2 & S2).
  repeat split; try congruence. exists (m1 ++ m2). rewrite S2, S1. now rewrite app_assoc.
Qed.

Lemma quiet_ret {A} (a : A) : quiet (ret a).
Proof. intros c w. exists a, c, w. split; [apply extends_refl|reflexivity]. Qed.

Lemma quiet_bind {A B} (m : M A) (k : A -> M B) :
  quiet m -> (forall a, quiet (k a)) -> quiet (bind m k).
Proof.
  intros Hm Hk c w. destruct (Hm c w) as (a & c1 & w1 & E1 & H1).
  destruct (Hk a c1 w1) as (b & c2 & w2 & E2 & H2).
  exists b, c2, w2. split; [eapply extends_trans; eassumption|].
  intros p. unfold bind. now rewrite H1, H2.
Qed.

Lemma quiet_try {A} (m : M A) (h : exn -> M A) : quiet m -> quiet (try_catch m h).
Proof.
  intros Hm c w. destruct (Hm c w) as (a & c1 & w1 & E1 & H1).
  exists a, c1, w1. split; [assumption|]. intros p. unfold try_catch. now rewrite H1.
Qed.

(** [listTools] does not look at the catalog. *)
Lemma listTools_frame name p p' c w :
  exists r c' w',
    Client.listTools name {| provider := p; client := c; world := w |}
    = (r, {| provider := p; client := c'; world := w' |})
    /\ Client.listTools name {| provider := p'; client := c; world := w |}
      = (r, {| provider := p'; client := c'; world := w' |}).
Proof.
  assert (forall (r : outcome jsval) c' w',
            exists r0 c0 w0,
              (r, {| provider := p; client := c'; world := w' |})
              = (r0, {| provider := p; client := c0; world := w0 |})
              /\ (r, {| provider := p'; client := c'; world := w' |})
                = (r0, {| provider := p'; client := c0; world := w0 |})) as Hdone.
  { intros r c' w'. exists r, c', w'. split; reflexivity. }
  DiscoveryFacts.run.
  destruct (Client.cache_is_fresh _ _ _); simpl; [apply Hdone|].
  destruct (network w) as [|x rest]; simpl; [apply Hdone|].
  destruct (result x) as [e|r]; simpl; [apply Hdone|].
  destruct (ok r); simpl; [|destruct (text r); simpl; apply Hdone].
  destruct (json r) as [data|e]; simpl; [|apply Hdone].
  destruct (JS.get data "tools") as [dt|]; simpl; [|apply Hdone].
  match goal with
  | |- context [Client.cacheTools ?n ?t {| provider := p; client := ?c0; world := ?w0 |}] =>
      destruct (DiscoveryFacts.cacheTools_run n t p c0 w0) as (o & -> & Ho);
      destruct (DiscoveryFacts.cacheTools_run n t p' c0 w0) as (o' & -> & Ho')
  end.
  destruct o, o'; try congruence; apply Hdone.
Qed.

Lemma quiet_listTools name : quiet (Client.listTools name).
Proof.
  intros c w. set (p0 := {| tools := []; initialized := false |}).
  destruct (DiscoveryFacts.listTools_returns name
              {| provider := p0; client := c; world := w |}) as (v & s' & Hrun).
  destruct (cache_hit name {| provider := p0; client := c; world := w |}) eqn:Hhit.
  - destruct (DiscoveryFacts.cache_hit_cached _ _ Hhit) as (v' & e & Hc & _).
    exists v', c, w. split; [apply extends_refl|]. intros p.
    apply DiscoveryFacts.listTools_hit; assumption.
  - destruct (DiscoveryFacts.listTools_miss _ _ Hhit) as (v' & c' & Hmiss & _).
    simpl in Hmiss.
    exists v', c', (after_fetch (list_request name w) w). split.
    + repeat split. simpl. eauto.
    + intros p. destruct (listTools_frame name p0 p c w) as (r & c2 & w2 & H1 & H2).
      rewrite H2. rewrite Hmiss in H1. now injection H1 as <- <- <-.
Qed.

Lemma quiet_client_initialize cfgs : quiet (Client.initialize cfgs).
Proof.
  unfold Client.initialize. induction cfgs as [|cfg rest IH]; simpl.
  - apply quiet_ret.
  - apply quiet_bind; [|intros _; exact IH].
    destruct (match cfg_enabled cfg with Some false => false | _ => true end);
      [|apply quiet_ret].
    apply quiet_try, quiet_bind; [apply quiet_listTools|intros; apply quiet_ret].
Qed.

Lemma quiet_getAllTools_step cfg acc : quiet (Client.getAllTools_step cfg acc).
Proof.
  unfold Client.getAllTools_step.
  destruct (match cfg_enabled cfg with Some false => false | _ => true end);
    [|apply quiet_ret].
  apply quiet_try, quiet_bind; [apply quiet_listTools|].
  intros v. destruct (Client.iterate v); apply quiet_ret.
Qed.

Lemma quiet_getAllTools cfgs : quiet (Client.getAllTools cfgs).
Proof.
  unfold Client.getAllTools. generalize (@nil Tool).
  induction cfgs as [|cfg rest IH]; simpl; intros acc.
  - apply quiet_ret.
  - apply quiet_bind; [apply quiet_getAllTools_step|intros; apply IH].
Qed.

Lemma for_each_set_tools loaded : forall p c w,
  for_each loaded (fun tool => modify (Provider.set_tools (JS.set (name tool) tool)))
    {| provider := p; client := c; world := w |}
  = (Ret tt,
     {| provider := {| tools := fold_left (fun acc t => JS.set (name t) t acc)
                                          loaded (tools p);
                       initialized := initialized p |};
        client := c; world := w |}).
Proof.
  induction loaded as [|t rest IH]; intros [held flag] c w; simpl.
  - reflexivity.
  - unfold bind, modify. simpl. apply IH.
Qed.

(** One round of the loop of [loadTools] *)
Lemma loadTools_step_run conn c w :
  exists loaded c' w',
    extends w w'
    /\ (forall p, Client.getAllTools [Provider.to_config conn]
                    {| provider := p; client := c; world := w |}
                  = (Ret loaded, {| provider := p; client := c'; world := w' |}))
    /\ forall p, Provider.loadTools_step conn {| provider := p; client := c; world := w |}
                 = (Ret tt,
                    {| provider := {| tools := installed conn loaded (tools p);
                                      initialized := initialized p |};
                       client := c'; world := w' |}).
Proof.
  destruct (quiet_getAllTools [Provider.to_config conn] c w)
    as (loaded & c' & w' & Hext & Hrun).
  exists loaded, c', w'. split; [assumption|]. split; [assumption|].
  intros p. unfold Provider.loadTools_step, try_catch, bind. rewrite Hrun.
  rewrite for_each_set_tools. unfold installed. simpl.
  destruct ((length loaded =? 0)%nat && String.eqb (conn_name conn) "you_mcp");
    reflexivity.
Qed.

Lemma loadTools_steps_run conns : forall c w held0,
  exists held c' w',
    extends w w'
    /\ forall flag,
         for_each conns Provider.loadTools_step
           {| provider := {| tools := held0; initialized := flag |};
              client := c; world := w |}
         = (Ret tt, {| provider := {| tools := held; initialized := flag |};
                       client := c'; world := w' |}).
Proof.
  induction conns as [|conn rest IH]; intros c w held0; simpl.
  - exists held0, c, w. split; [apply extends_refl|reflexivity].
  - destruct (loadTools_step_run conn c w) as (loaded & c1 & w1 & E1 & _ & H1).
    destruct (IH c1 w1 (installed conn loaded held0)) as (held & c2 & w2 & E2 & H2).
    exists held, c2, w2. split; [eapply extends_trans; eassumption|].
    intros flag. unfold bind. rewrite H1. simpl. apply H2.
Qed.

(** [loadTools] returns, and the catalog it leaves does not depend on the
    catalog it found. *)
Lemma loadTools_run conns c w :
  exists held c' w',
    extends w w'
    /\ forall p, Provider.loadTools conns {| provider := p; client := c; world := w |}
                 = (Ret tt, {| provider := {| tools := held; initialized := initialized p |};
                               client := c'; world := w' |}).
Proof.
  destruct (loadTools_steps_run conns c w []) as (held & c' & w' & E & H).
  exists held, c', w'. split; [assumption|]. intros [held0 flag].
  unfold Provider.loadTools, bind, modify. simpl. apply H.
Qed.

(** [initialize] on a catalog that is not initialized, with MCP enabled:
    it returns, the flag is set, and neither the catalog nor the cache it
    leaves depends on the catalog it found. *)
Lemma initialize_enabled_run c w :
  enabled_in w = true ->
  exists held c' w',
    extends w w'
    /\ forall held0,
         Provider.initialize
           {| provider := {| tools := held0; initialized := false |};
              client := c; world := w |}
         = (Ret tt, {| provider := {| tools := held; initialized := true |};
                       client := c'; world := w' |}).
Proof.
  intros Hen.
  destruct (quiet_client_initialize
              (map Provider.to_config (List.filter conn_enabled (connections w))) c w)
    as ([] & c1 & w1 & E1 & H1).
  destruct (loadTools_run (List.filter conn_enabled (connections w)) c1 w1)
    as (held & c2 & w2 & E2 & H2).
  exists held, c2, w2. split; [eapply extends_trans; eassumption|].
  intros held0.
  unfold Provider.initialize, isMcpEnabled, getEnabledMcpConnections, try_catch, bind, gets.
  cbn [provider client world initialized]. unfold enabled_in in Hen. rewrite Hen.
  cbn [negb]. rewrite H1, H2. reflexivity.
Qed.

Lemma initialize_disabled_run p c w :
  initialized p = false ->
  enabled_in w = false ->
  Provider.initialize {| provider := p; client := c; world := w |}
  = (Ret tt, {| provider := {| tools := tools p; initialized := true |};
                client := c; world := w |}).
Proof.
  intros Hp Hen. unfold Provider.initialize, isMcpEnabled, bind, gets.
  cbn [provider client world initialized]. unfold enabled_in in Hen.
  rewrite Hp. cbn [provider client world initialized]. rewrite Hen. reflexivity.
Qed.

Lemma initialize_done s :
  initialized (provider s) = true -> Provider.initialize s = (Ret tt, s).
Proof.
  intros H. unfold Provider.initialize, bind, gets. simpl. now rewrite H.
Qed.

(** [initialize] always returns, with the flag set. *)
Lemma initialize_sets_flag s :
  exists s', Provider.initialize s = (Ret tt, s') /\ initialized (provider s') = true.
Proof.
  destruct (initialized (provider s)) eqn:Hflag.
  - exists s. split; [now apply initialize_done|assumption].
  - destruct s as [[held flag] c w]. simpl in Hflag. subst flag.
    destruct (enabled_in w) eqn:Hen.
    + destruct (initialize_enabled_run c w Hen) as (held' & c' & w' & _ & H).
      rewrite H. eauto.
    + rewrite initialize_disabled_run by auto. eauto.
Qed.

End LifecycleFacts.

(** C8: a second [initialize] with no [refresh] in between is a no-op.
    The first call returns with the flag set, whatever it found; run
    again from the state it left, [initialize] returns at once and leaves
    that state as it is: the same catalog and flag, the same cache, no
    request sent, no answer of the registry consumed. *)
Theorem initialize_twice (s : State) :
  result_of Provider.initialize s = Ret tt
  /\ initialized (provider (state_after Provider.initialize s)) = true
  /\ Provider.initialize (state_after Provider.initialize s)
     = (Ret tt, state_after Provider.initialize s).
Proof.
  unfold result_of, state_after.
  destruct (LifecycleFacts.initialize_sets_flag s) as (s' & -> & Hflag). simpl.
  split; [reflexivity|]. split; [assumption|].
  now apply LifecycleFacts.initialize_done.
Qed.

Module GetterFacts.


End GetterFacts.



Module FallbackFacts.

(** With nothing discovered, [getAllTools] has nothing to return. *)
Lemma getAllTools_nothing cfg s :
  cfg_enabled cfg <> Some false ->
  result_of (Client.listTools (connectionName cfg)) s = Ret (JArr []) ->
  result_of (Client.getAllTools [cfg]) s = Ret [].
Proof.
  unfold result_of. intros Hen Hlist.
  unfold Client.getAllTools, Client.getAllTools_from, Client.getAllTools_step.
  destruct (cfg_enabled cfg) as [[]|]; try congruence;
    unfold bind, try_catch, ret;
    destruct (Client.listTools (connectionName cfg) s) as [r s'];
    simpl in Hlist; subst r; reflexivity.
Qed.

Lemma filter_singleton_enabled conns conn :
  List.filter conn_enabled conns = [conn] -> conn_enabled conn = true.
Proof.
  intros H. assert (In conn (List.filter conn_enabled conns)) as Hin.
  { rewrite H. now left. }
  now apply filter_In in Hin.
Qed.

End FallbackFacts.

(** Two ways in which the discovery that feeds the catalog comes back
    empty: the registry fails for the pre-fetch and for the load, or it
    answers the pre-fetch with an empty list of tools. *)
Lemma failing_registry_discovers_nothing (s : State) (conn : McpConnection) :
  List.filter conn_enabled (connections (world s)) = [conn] ->
  cache_hit (conn_name conn) s = false ->
  discovery_fails (network (world s)) = true ->
  discovery_fails (tl (network (world s))) = true ->
  discovery_at_load (conn_name conn) s = Ret (JArr []).
Proof.
  intros Hconns Hmiss Hf1 Hf2. unfold discovery_at_load, state_after, result_of.
  rewrite Hconns. cbn [map]. unfold Client.initialize, for_each, try_catch, bind, ret.
  cbn [Provider.to_config cfg_enabled connectionName].
  rewrite (FallbackFacts.filter_singleton_enabled _ _ Hconns).
  destruct (DiscoveryFacts.listTools_miss _ _ Hmiss) as (v & c & -> & Hv & Habort & Hstore).
  cbn [fst snd]. rewrite (Hv Hf1) in *.
  destruct (discovery_aborts (network (world s))) eqn:Ha.
  - rewrite (Habort eq_refl).
    match goal with |- fst (Client.listTools _ ?s1) = _ =>
      assert (cache_hit (conn_name conn) s1 = false) as Hmiss1 end.
    { unfold cache_hit in *. cbn [client world after_fetch clock].
      eapply CacheFacts.stale_stays_stale; [|exact Hmiss].
      destruct (network (world s)); lia. }
    destruct (DiscoveryFacts.listTools_miss _ _ Hmiss1) as (v1 & c1 & -> & Hv1 & _).
    cbn [fst]. f_equal. apply Hv1. exact Hf2.
  - destruct (Hstore eq_refl) as (stored & _ & -> & _ & Hs). rewrite (Hs Hf1).
    erewrite DiscoveryFacts.listTools_hit; [reflexivity| |].
    + unfold cache_hit, Client.cache_is_fresh. cbn [client cachedTools toolCacheExpiry world].
      rewrite !lookup_insert_eq. cbn [JS.truthy andb].
      apply andb_true_iff. split.
      * apply negb_true_iff, N.eqb_neq. unfold Client.CACHE_DURATION. lia.
      * apply N.ltb_lt. unfold Client.CACHE_DURATION. lia.
    + cbn [client cachedTools]. apply lookup_insert_eq.
Qed.

(** C1: when [initialize] runs on a catalog that is not initialized, MCP
    is enabled, ['you_mcp'] is the only enabled connection, and the
    discovery that feeds the catalog returns the empty array (because the
    round trip failed or because the registry has no tools), then
    [initialize] returns and the catalog holds the two fallback tools and
    nothing else: [getToolNames()] is [["web_search"; "web_fetch"]]. *)
Theorem initialize_installs_fallback (s : State) (conn : McpConnection) :
  initialized (provider s) = false ->
  enabled_in (world s) = true ->
  List.filter conn_enabled (connections (world s)) = [conn] ->
  conn_name conn = "you_mcp" ->
  discovery_at_load "you_mcp" s = Ret (JArr []) ->
  result_of Provider.initialize s = Ret tt
  /\ Provider.getToolNames (state_after Provider.initialize s) = ["web_search"; "web_fetch"]
  /\ tools (provider (state_after Provider.initialize s))
     = [("web_search", Provider.web_search_tool); ("web_fetch", Provider.web_fetch_tool)].
Proof.
  destruct s as [[held0 flag] c w]. simpl. intros -> Hen Hconns Hname Hdisc.
  unfold discovery_at_load in Hdisc. simpl in Hdisc. rewrite Hconns in Hdisc.
  destruct (LifecycleFacts.quiet_client_initialize [Provider.to_config conn] c w)
    as ([] & c1 & w1 & E1 & H1).
  unfold state_after in Hdisc. rewrite H1 in Hdisc. simpl in Hdisc.
  destruct (LifecycleFacts.loadTools_step_run conn c1 w1)
    as (loaded & c2 & w2 & E2 & Hget & Hstep).
  assert (loaded = []) as ->.
  { pose proof (FallbackFacts.getAllTools_nothing (Provider.to_config conn)
                  {| provider := {| tools := held0; initialized := false |};
                     client := c1; world := w1 |}) as Hn.
    simpl in Hn. rewrite Hname in Hn. unfold result_of in Hn. rewrite Hget in Hn.
    simpl in Hn. rewrite (FallbackFacts.filter_singleton_enabled _ _ Hconns) in Hn.
    assert (Ret loaded = Ret (@nil Tool)) as Heq by (apply Hn; [discriminate|assumption]).
    now injection Heq. }
  assert (Provider.initialize
            {| provider := {| tools := held0; initialized := false |};
               client := c; world := w |}
          = (Ret tt, {| provider := {| tools := installed conn [] []; initialized := true |};
                        client := c2; world := w2 |})) as Hrun.
  { unfold Provider.initialize, isMcpEnabled, getEnabledMcpConnections, try_catch, bind, gets.
    cbn [provider client world initialized]. unfold enabled_in in Hen. rewrite Hen.
    cbn [negb provider client world initialized]. rewrite Hconns. cbn [map]. rewrite H1.
    unfold Provider.loadTools, bind, modify, Provider.set_tools, set_provider.
    cbn [provider client world initialized tools for_each]. unfold bind.
    rewrite Hstep. reflexivity. }
  unfold result_of, state_after. rewrite Hrun. simpl.
  unfold installed, Provider.getToolNames. simpl. rewrite Hname. simpl.
  repeat split.
Qed.

(** The pre-fetch is refused, the load finds a registry without tools *)
Lemma initialize_installs_fallback_witness :
  Provider.getToolNames
    (state_after Provider.initialize
       (boot (sample_world [refusal; answer (JObj [("tools", JArr [])])])))
  = ["web_search"; "web_fetch"].
Proof.
  apply (initialize_installs_fallback
           (boot (sample_world [refusal; answer (JObj [("tools", JArr [])])]))
           {| conn_name := "you_mcp";
              conn_description :=
                "Unity Catalog MCP server for web search, content fetching, and real-time information";
              conn_enabled := true;
              conn_type := external |});
    reflexivity.
Defined.

Module RefreshFacts.
Import LifecycleFacts.





End RefreshFacts.



(** A discovery made once [refresh] has returned is another matter: when
    the registry answered the refresh, its answer is in the cache, and the
    discovery is served from there. *)
Lemma discovery_after_refresh_uses_new_entry :
  let old_tool := JObj [("name", JStr "web_search")] in
  let new_tool := JObj [("name", JStr "web_fetch")] in
  let s := state_after Provider.refresh
             (state_after Provider.initialize
                (boot (sample_world [answer (JArr [old_tool]); answer (JArr [new_tool])]))) in
  length (sent (world s)) = 2%nat
  /\ Client.listTools "you_mcp" s = (Ret (JArr [new_tool]), s).
Proof. vm_compute. split; reflexivity. Qed.


Module ExecuteFacts.

(** The error [callTool] raises for a status outside 200..299 carries a
    message of its own. *)
Lemma callTool_status_failure connectionName toolName args s x rest r body_text :
  network (world s) = x :: rest ->
  result x = Responded r ->
  ok r = false ->
  text r = Ret body_text ->
  result_of (Client.callTool connectionName toolName args) s
  = Throw (JsError "Error" ("Tool call failed: " +:+ statusText r)).
Proof.
  intros Hnet Hres Hok Htext.
  unfold result_of, Client.callTool, Client.getAuthHeaders, Client.getBaseUrl, fetch,
    try_catch, bind, gets, lift, throw.
  cbn [provider client world]. rewrite Hnet, Hres. cbn [fst snd].
  rewrite Hok. cbn [negb]. rewrite Htext. reflexivity.
Qed.

(** A transport error is passed on as it is. *)
Lemma callTool_transport_failure connectionName toolName args s x rest e :
  network (world s) = x :: rest ->
  result x = Rejected e ->
  result_of (Client.callTool connectionName toolName args) s = Throw e.
Proof.
  intros Hnet Hres.
  unfold result_of, Client.callTool, Client.getAuthHeaders, Client.getBaseUrl, fetch,
    try_catch, bind, gets, lift, throw.
  cbn [provider client world]. rewrite Hnet, Hres. reflexivity.
Qed.

(** Whatever [callTool] raises carries a message, provided what the
    platform raises does: its own errors are the ["Tool call failed: ..."]
    one and the [TypeError] of reading a field of [null]. *)
Lemma callTool_error_described connectionName toolName args s s' e :
  platform_errors_described (network (world s)) = true ->
  Client.callTool connectionName toolName args s = (Throw e, s') ->
  described e = true.
Proof.
  destruct s as [p c w].
  unfold Client.callTool, Client.getAuthHeaders, Client.getBaseUrl, fetch,
    try_catch, bind, gets, lift, throw, ret, platform_errors_described.
  cbn [provider client world].
  destruct (network w) as [|x rest]; cbn [fst snd].
  { intros _ [= <- _]. reflexivity. }
  destruct (result x) as [e0|r]; cbn [fst snd].
  { intros He [= <- _]. exact He. }
  intros [Htext Hjson]%andb_true_iff.
  destruct (ok r); cbn [negb].
  - destruct (json r) as [data|e0]; cbn [fst snd]; [|intros [= <- _]; exact Hjson].
    destruct data as [| |b|n|str|elems|fields]; cbn [JS.get fst snd];
      try (intros [= <- _]; reflexivity);
      try discriminate.
    destruct (JS.assoc "result" fields) as [[]|]; try discriminate.
    + destruct (JS.assoc "content" fields) as [dc|]; cbn [fst snd].
      * destruct (JS.truthy dc); discriminate.
      * cbn [JS.truthy]. discriminate.
    + destruct (JS.assoc "content" fields) as [dc|]; cbn [fst snd].
      * destruct (JS.truthy dc); discriminate.
      * cbn [JS.truthy]. discriminate.
  - destruct (text r) as [shown|e0]; cbn [fst snd]; intros [= <- _];
      [reflexivity|exact Htext].
Qed.

Lemma described_message e fallback :
  described e = true -> fallback <> EmptyString ->
  Provider.message_or e fallback <> EmptyString.
Proof.
  destruct e as [n m|v]; cbn [described Provider.message_or]; [|auto].
  intros Hm%negb_true_iff%String.eqb_neq _. exact Hm.
Qed.

(** What the input schema of [web_fetch] lets through is an object whose
    [url] is the string that came in. *)
Lemma web_fetch_input is_url raw args :
  zod_parse is_url (inputSchema Provider.web_fetch_tool) raw = Some args ->
  nullish args = false /\ exists u, url_of raw = JStr u /\ url_of args = JStr u.
Proof.
  destruct raw as [| |b|n|str|elems|fields]; try discriminate.
  cbn [inputSchema Provider.web_fetch_tool Provider.desc zod_parse url_of].
  destruct (JS.assoc "url" fields) as [[| |b|n|u|elems|fs]|]; try discriminate.
  destruct (is_url u); [|discriminate].
  destruct (JS.assoc "extractText" fields) as [[| |b1|n1|s1|l1|f1]|];
    destruct (JS.assoc "summarize" fields) as [[| |b2|n2|s2|l2|f2]|];
    cbn [JS.has_key JS.assoc app];
    try discriminate;
    intros [= <-]; (split; [reflexivity|]); exists u; split; reflexivity.
Qed.

End ExecuteFacts.

(** C9: when the remote call behind a fallback tool fails, [execute]
    returns a value instead of raising.  [web_search] returns
    [{results: [], error: m}] for every argument value; [web_fetch]
    returns [{content, url: args.url, fetchedAt: now, error: m}] with an
    empty [content] for every argument value other than [null] and
    [undefined], and so for every value its input schema lets through,
    which is an object whose [url] is the string that came in.  [m] is
    the message of the error raised, or the fixed text (["Search failed"],
    ["Fetch failed"]) when what was raised is not an [Error]; it is not
    empty, given that the errors of the platform carry a message. *)
Theorem fallback_failure_is_a_value (toISOString : N -> string)
    (args : jsval) (s s' : State) (e : exn) :
  (Client.callTool "you_mcp" (JStr "web_search") args s = (Throw e, s') ->
   Provider.run_execute toISOString Provider.web_search_tool args s
   = (Ret (JObj [("results", JArr []);
                 ("error", JStr (Provider.message_or e "Search failed"))]), s'))
  /\ (Client.callTool "you_mcp" (JStr "web_fetch") args s = (Throw e, s') ->
      nullish args = false ->
      Provider.run_execute toISOString Provider.web_fetch_tool args s
      = (Ret (JObj [("content", JStr EmptyString);
                    ("url", url_of args);
                    ("fetchedAt", JStr (toISOString (clock (world s'))));
                    ("error", JStr (Provider.message_or e "Fetch failed"))]), s'))
  /\ (forall is_url raw,
        zod_parse is_url (inputSchema Provider.web_fetch_tool) raw = Some args ->
        nullish args = false
        /\ exists u, url_of raw = JStr u /\ url_of args = JStr u)
  /\ (forall fallback,
        Provider.message_or e fallback
        = match e with JsError _ message => message | JsThrown _ => fallback end)
  /\ (platform_errors_described (network (world s)) = true ->
      (Client.callTool "you_mcp" (JStr "web_search") args s = (Throw e, s') ->
       Provider.message_or e "Search failed" <> EmptyString)
      /\ (Client.callTool "you_mcp" (JStr "web_fetch") args s = (Throw e, s') ->
          Provider.message_or e "Fetch failed" <> EmptyString)).
Proof.
  split; [|split; [|split; [|split]]].
  - intros Hcall. unfold Provider.run_execute, Provider.execute_web_search, try_catch, bind.
    cbn [execute Provider.web_search_tool]. rewrite Hcall. reflexivity.
  - intros Hcall Hargs.
    unfold Provider.run_execute, Provider.execute_web_fetch, try_catch, bind, lift, Date_now,
      gets, ret.
    cbn [execute Provider.web_fetch_tool]. rewrite Hcall.
    destruct args; try discriminate Hargs; reflexivity.
  - intros is_url raw. apply ExecuteFacts.web_fetch_input.
  - intros fallback. reflexivity.
  - intros Hplat. split; intros Hcall;
      (apply ExecuteFacts.described_message; [|discriminate]);
      exact (ExecuteFacts.callTool_error_described _ _ _ _ _ _ Hplat Hcall).
Qed.

(** Both tools against a registry that answers 503, on arguments their
    input schemas let through *)
Lemma fallback_failure_is_a_value_witness :
  let s := boot (sample_world [refusal]) in
  let args := JObj [("url", JStr "https://example.org/page"); ("extractText", JBool true);
                    ("summarize", JBool false)] in
  zod_parse (fun _ => true) (inputSchema Provider.web_fetch_tool)
    (JObj [("url", JStr "https://example.org/page")]) = Some args
  /\ result_of (Provider.run_execute (fun _ => "2023-11-14T22:13:20.015Z")
                  Provider.web_fetch_tool args) s
     = Ret (JObj [("content", JStr EmptyString);
                  ("url", JStr "https://example.org/page");
                  ("fetchedAt", JStr "2023-11-14T22:13:20.015Z");
                  ("error", JStr "Tool call failed: Service Unavailable")])
  /\ result_of (Provider.run_execute (fun _ => "2023-11-14T22:13:20.015Z")
                  Provider.web_search_tool (JObj [("query", JStr "rocq")])) s
     = Ret (JObj [("results", JArr []);
                  ("error", JStr "Tool call failed: Service Unavailable")])
  /\ Provider.message_or (JsError "Error" "Tool call failed: Service Unavailable")
       "Fetch failed" <> EmptyString.
Proof.
  intros s args. split; [reflexivity|]. split; [|split].
  - destruct (fallback_failure_is_a_value (fun _ => "2023-11-14T22:13:20.015Z") args s
                (state_after (Client.callTool "you_mcp" (JStr "web_fetch") args) s)
                (JsError "Error" "Tool call failed: Service Unavailable")) as (_ & H & _).
    unfold result_of. rewrite H; reflexivity.
  - destruct (fallback_failure_is_a_value (fun _ => "2023-11-14T22:13:20.015Z")
                (JObj [("query", JStr "rocq")]) s
                (state_after (Client.callTool "you_mcp" (JStr "web_search")
                                (JObj [("query", JStr "rocq")])) s)
                (JsError "Error" "Tool call failed: Service Unavailable")) as (H & _).
    unfold result_of. rewrite H; reflexivity.
  - destruct (fallback_failure_is_a_value (fun _ => "2023-11-14T22:13:20.015Z") args s
                (state_after (Client.callTool "you_mcp" (JStr "web_fetch") args) s)
                (JsError "Error" "Tool call failed: Service Unavailable"))
      as (_ & _ & _ & _ & H).
    apply (H eq_refl). reflexivity.
Defined.

(** Outside its input schema: called with [null] for the arguments while
    the remote call fails, the handler of [web_fetch] raises when it
    reads [args.url]. *)
Lemma web_fetch_raises_on_null :
  let s := boot (sample_world [refusal]) in
  zod_parse (fun _ => true) (inputSchema Provider.web_fetch_tool) JNull = None
  /\ result_of (Client.callTool "you_mcp" (JStr "web_fetch") JNull) s
     = Throw (JsError "Error" "Tool call failed: Service Unavailable")
  /\ result_of (Provider.run_execute (fun _ => "2023-11-14T22:13:20.015Z")
                  Provider.web_fetch_tool JNull) s
     = Throw (TypeError "Cannot read properties of null (reading 'url')").
Proof.
  repeat split; reflexivity.
Qed.

(** * Further properties *)

(** ** Invocation ([callTool]) *)

Module CallFacts.

Ltac run_call :=
  unfold Client.callTool, Client.getAuthHeaders, Client.getBaseUrl, fetch,
         try_catch, bind, ret, throw, lift, gets,
         set_world, set_client, set_provider;
  cbn [provider client world fst snd].

(** [callTool] always sends its one request, and touches neither the
    catalog nor the cache. *)
Lemma callTool_frame connectionName toolName args s :
  exists r,
    Client.callTool connectionName toolName args s
    = (r, {| provider := provider s; client := client s;
             world := after_fetch (call_request connectionName toolName args (world s))
                                  (world s) |}).
Proof.
  destruct s as [p c w]. run_call. unfold after_fetch, call_request.
  destruct (network w) as [|x rest]; cbn [tl]; [eauto|].
  destruct (result x) as [e|r]; [eauto|].
  destruct (ok r); cbn [negb].
  - destruct (json r) as [data|e]; cbn [fst snd]; [|eauto].
    destruct (JS.get data "result") as [dr|e]; cbn [fst snd]; [|eauto].
    destruct dr; try (eexists; reflexivity).
    destruct (JS.get data "content") as [dc|e]; cbn [fst snd]; [|eauto].
    destruct (JS.truthy dc); eauto.
  - destruct (text r); cbn [fst snd]; eauto.
Qed.

End CallFacts.

(** X1: a tool call is one request, whatever comes back, and it does not
    go through the discovery cache: the catalog and the cache are left as
    they were (a cached, unexpired discovery of the same connection does
    not save the round trip), and the request log grows by the one
    [tools/call] POST. *)
Theorem callTool_one_request (connectionName : string) (toolName args : jsval) (s : State) :
  let s' := state_after (Client.callTool connectionName toolName args) s in
  provider s' = provider s
  /\ client s' = client s
  /\ sent (world s') = sent (world s) ++ [call_request connectionName toolName args (world s)]
  /\ network (world s') = tl (network (world s)).
Proof.
  intros s'. subst s'. unfold state_after.
  destruct (CallFacts.callTool_frame connectionName toolName args s) as [r ->].
  repeat split.
Qed.

(** X2: what a successful call returns.  For a 2xx response whose JSON
    body is not [null]: the [result] field when the body has one, even a
    [null], [false] or [0]; otherwise the [content] field when that is
    truthy; otherwise the whole body. *)
Theorem callTool_answer (connectionName : string) (toolName args : jsval) (s : State)
    (data : jsval) :
  answers_with (network (world s)) data ->
  nullish data = false ->
  (field "result" data <> JUndefined ->
     result_of (Client.callTool connectionName toolName args) s = Ret (field "result" data))
  /\ (field "result" data = JUndefined -> JS.truthy (field "content" data) = true ->
     result_of (Client.callTool connectionName toolName args) s = Ret (field "content" data))
  /\ (field "result" data = JUndefined -> JS.truthy (field "content" data) = false ->
     result_of (Client.callTool connectionName toolName args) s = Ret data).
Proof.
  intros (x & rest & r & Hnet & Hres & Hok & Hjson) Hdata.
  unfold result_of. destruct s as [p c w]. cbn [world] in Hnet.
  CallFacts.run_call. rewrite Hnet, Hres. cbn [fst snd]. rewrite Hok, Hjson. cbn [negb fst snd].
  destruct data as [| |b|n|str|elems|fields]; try discriminate Hdata;
    cbn [JS.get field fst snd].
  1-4: repeat split; intros; try congruence; try discriminate; try reflexivity.
  destruct (JS.assoc "result" fields) as [dr|]; cbn [fst snd].
  - repeat split; intros H1; try intros H2.
    + destruct dr; try congruence; reflexivity.
    + subst dr. cbn [fst snd]. now rewrite H2.
    + subst dr. cbn [fst snd]. now rewrite H2.
  - repeat split; intros H1; try intros H2; try congruence; now rewrite H2.
Qed.

Lemma callTool_answer_witness :
  result_of (Client.callTool "you_mcp" (JStr "web_search") JUndefined)
    (boot (sample_world [answer (JObj [("result", JNull); ("content", JStr "ignored")])]))
  = Ret JNull.
Proof.
  destruct (callTool_answer "you_mcp" (JStr "web_search") JUndefined
              (boot (sample_world [answer (JObj [("result", JNull);
                                                 ("content", JStr "ignored")])]))
              (JObj [("result", JNull); ("content", JStr "ignored")])) as (H & _).
  - do 3 eexists. repeat split; reflexivity.
  - reflexivity.
  - apply H. discriminate.
Defined.

(** X3: [callTool] returns a value exactly when the round trip brings a
    2xx response with a JSON body other than [null]; in every other case
    it raises (a transport error, any other status, a body that is not
    JSON, the body [null]). *)
Theorem callTool_returns_iff (connectionName : string) (toolName args : jsval) (s : State) :
  (exists v, result_of (Client.callTool connectionName toolName args) s = Ret v)
  <-> (exists data, answers_with (network (world s)) data /\ nullish data = false).
Proof.
  unfold result_of, answers_with. destruct s as [p c w]. cbn [world].
  CallFacts.run_call. split.
  - intros [v Hv].
    destruct (network w) as [|x rest]; [discriminate|].
    destruct (result x) as [e|r] eqn:Hres; [discriminate|]. cbn [fst snd] in Hv.
    destruct (ok r) eqn:Hok; cbn [negb] in Hv.
    2:{ destruct (text r); discriminate. }
    destruct (json r) as [data|e] eqn:Hjson; cbn [fst snd] in Hv; [|discriminate].
    exists data. split; [exists x, rest, r; auto|].
    destruct data; try reflexivity; discriminate.
  - intros (data & (x & rest & r & -> & -> & Hok & Hjson) & Hdata).
    cbn [fst snd]. rewrite Hok, Hjson. cbn [negb fst snd].
    destruct data; try discriminate Hdata; cbn [JS.get fst snd]; eauto.
    destruct (JS.assoc "result" fields) as [[]|]; cbn [fst snd]; eauto;
      destruct (JS.truthy _); eauto.
Qed.

Lemma callTool_returns_iff_witness :
  exists data,
    answers_with
      (network (world (boot (sample_world [answer (JObj [("content", JStr "page text")])]))))
      data
    /\ nullish data = false.
Proof.
  apply (callTool_returns_iff "you_mcp" (JStr "web_fetch") JUndefined).
  eexists. reflexivity.
Defined.

(** ** What the schema translator can raise *)

Module RaiseFacts.
Import Translator TranslatorFacts.

#[local] Arguments convertJsonSchemaProperty_fuel : simpl never.
#[local] Arguments depth : simpl never.

Lemma mark_optional_raises required todo shape e :
  mark_optional required todo shape = Throw e -> e = includes_error.
Proof.
  revert shape. induction todo as [|k r IH]; simpl; intros shape H; [discriminate|].
  destruct (JS.includes required k) as [b|e'] eqn:Hi; simpl in H.
  - eapply IH, H.
  - injection H as ->. destruct required; simpl in Hi; try discriminate;
      now injection Hi as <-.
Qed.

Lemma jsonSchemaToZod_with_raises f j e :
  jsonSchemaToZod_with f j = Throw e ->
  e = includes_error \/ exists v, (depth v < depth j)%nat /\ f v = Throw e.
Proof.
  unfold jsonSchemaToZod_with.
  destruct (negb (JS.truthy j) || (length (JS.keys j) =? 0)%nat) eqn:Hg; [discriminate|].
  intros H. destruct j; simpl in H, Hg; try discriminate.
  destruct (JS.is_str _ "object") eqn:Hty; simpl in H; [|discriminate].
  destruct (JS.assoc "properties" fields) as [props|] eqn:Hp; simpl in H; [|discriminate].
  destruct (JS.truthy props); [|discriminate].
  destruct (build_shape f (JS.entries props) []) as [shape|e'] eqn:Hb; simpl in H.
  - match type of H with context [mark_optional ?a ?b ?c] =>
      destruct (mark_optional a b c) as [shape'|e'] eqn:Hm end; simpl in H; [discriminate|].
    injection H as ->. left. eapply mark_optional_raises, Hm.
  - injection H as ->. right. apply build_shape_throw in Hb as (kv & Hin & Hkv).
    exists (snd kv). split; [|assumption].
    eapply (depth_entries_of_field "properties"); eassumption.
Qed.

Lemma convertJsonSchemaProperty_raises prop e :
  convertJsonSchemaProperty prop = Throw e -> e = includes_error.
Proof.
  unfold convertJsonSchemaProperty.
  assert (forall n p, (depth p < n)%nat ->
            convertJsonSchemaProperty_fuel n p = Throw e -> e = includes_error) as H.
  2:{ apply H. lia. }
  clear prop. induction n as [|n IH]; intros p Hn; [lia|]. rewrite fuel_step.
  destruct p as [| |b|z|str|elems|fields]; simpl; try discriminate.
  1-3: match goal with |- context [if ?c then _ else _] => destruct c end; discriminate.
  set (ty := match JS.assoc "type" fields with Some x => x | None => JUndefined end).
  destruct (negb (JS.truthy ty)); [discriminate|].
  repeat (match goal with |- context [if JS.is_str ty ?s then _ else _] =>
            destruct (JS.is_str ty s); [discriminate|] end).
  destruct (JS.is_str ty "array").
  { destruct (JS.assoc "items" fields) as [items|] eqn:Hi; simpl; [|discriminate].
    destruct (JS.truthy items); [|discriminate].
    apply depth_field in Hi.
    destruct (convertJsonSchemaProperty_fuel n items) as [z|e'] eqn:Hz; simpl; [discriminate|].
    intros [= ->]. eapply (IH items); [lia|eassumption]. }
  destruct (JS.is_str ty "object"); [|discriminate].
  intros Hthrow. apply jsonSchemaToZod_with_raises in Hthrow as [Hne|(v & Hv & Hf)].
  - assumption.
  - eapply (IH v); [lia|eassumption].
Qed.

End RaiseFacts.

(** X4: the schema translator can raise, and in one way only: a
    [TypeError] for calling [required.includes] when [required] is truthy
    and neither an array nor a string.  Whatever else the descriptor holds
    (unknown types, missing fields, properties that are no object), both
    [jsonSchemaToZod] and [convertJsonSchemaProperty] return a schema. *)
Theorem translator_raises_only_on_required (descriptor : jsval) (e : exn) :
  (Translator.jsonSchemaToZod descriptor = Throw e -> e = includes_error)
  /\ (Translator.convertJsonSchemaProperty descriptor = Throw e -> e = includes_error).
Proof.
  split; [|apply RaiseFacts.convertJsonSchemaProperty_raises].
  intros H. unfold Translator.jsonSchemaToZod in H.
  apply RaiseFacts.jsonSchemaToZod_with_raises in H as [->|(v & _ & Hv)]; [reflexivity|].
  eapply RaiseFacts.convertJsonSchemaProperty_raises, Hv.
Qed.

Lemma translator_raises_only_on_required_witness :
  Translator.jsonSchemaToZod
    (JObj [("type", JStr "object");
           ("properties", JObj [("q", JObj [("type", JStr "string")])]);
           ("required", JBool true)])
  = Throw includes_error
  /\ includes_error = includes_error.
Proof.
  split; [reflexivity|].
  apply (translator_raises_only_on_required
           (JObj [("type", JStr "object");
                  ("properties", JObj [("q", JObj [("type", JStr "string")])]);
                  ("required", JBool true)]) includes_error).
  reflexivity.
Defined.

(** ** Collecting the tools of the connections ([getAllTools]) *)

Module CollectFacts.

Lemma push_converted_acc connectionName mcpTools : forall acc,
  Client.push_converted connectionName mcpTools acc
  = (acc ++ fst (Client.push_converted connectionName mcpTools []),
     snd (Client.push_converted connectionName mcpTools [])).
Proof.
  induction mcpTools as [|d rest IH]; intros acc; simpl.
  - now rewrite app_nil_r.
  - destruct (Client.convertToAiSdkTool d connectionName) as [t|e]; simpl.
    + rewrite (IH (acc ++ [t])), (IH [t]). simpl. now rewrite <- app_assoc.
    + now rewrite app_nil_r.
Qed.

Lemma push_converted_good connectionName good ts : forall rest acc,
  Forall2 (fun d t => Client.convertToAiSdkTool d connectionName = Ret t) good ts ->
  Client.push_converted connectionName (good ++ rest) acc
  = Client.push_converted connectionName rest (acc ++ ts).
Proof.
  intros rest acc H. revert acc.
  induction H as [|d t good ts Hd _ IH]; intros acc; simpl.
  - now rewrite app_nil_r.
  - rewrite Hd, IH. now rewrite <- app_assoc.
Qed.

(** One connection adds its tools after those already collected. *)
Lemma getAllTools_step_acc cfg s :
  exists new s',
    forall acc, Client.getAllTools_step cfg acc s = (Ret (acc ++ new), s').
Proof.
  unfold Client.getAllTools_step.
  destruct (match cfg_enabled cfg with Some false => false | _ => true end).
  - destruct (DiscoveryFacts.listTools_returns (connectionName cfg) s) as (v & s' & Hv).
    unfold try_catch, bind, ret. rewrite Hv.
    destruct (Client.iterate v) as [elems|e].
    + exists (fst (Client.push_converted (connectionName cfg) elems [])), s'.
      intros acc. now rewrite push_converted_acc.
    + exists [], s'. intros acc. now rewrite app_nil_r.
  - exists [], s. intros acc. unfold ret. now rewrite app_nil_r.
Qed.

Lemma getAllTools_from_acc cfgs : forall s,
  exists new s',
    forall acc, Client.getAllTools_from cfgs acc s = (Ret (acc ++ new), s').
Proof.
  induction cfgs as [|cfg rest IH]; intros s; simpl.
  - exists [], s. intros acc. unfold ret. now rewrite app_nil_r.
  - destruct (getAllTools_step_acc cfg s) as (new1 & s1 & H1).
    destruct (IH s1) as (new2 & s2 & H2).
    exists (new1 ++ new2), s2. intros acc. unfold bind. rewrite H1, H2.
    now rewrite app_assoc.
Qed.

Lemma getAllTools_from_app a : forall b acc s,
  Client.getAllTools_from (a ++ b) acc s
  = match Client.getAllTools_from a acc s with
    | (Ret acc', s') => Client.getAllTools_from b acc' s'
    | (Throw e, s') => (Throw e, s')
    end.
Proof.
  induction a as [|cfg rest IH]; intros b acc s; simpl; [reflexivity|].
  unfold bind. destruct (Client.getAllTools_step cfg acc s) as [[acc1|e] s1]; [|reflexivity].
  apply IH.
Qed.

End CollectFacts.

(** X5: a descriptor that cannot be converted ends the loading of its
    connection.  When the registry lists descriptors of which the first
    ones convert and the next one does not (a [null] entry, a schema the
    translator raises on, a name that has no string form), [getAllTools]
    returns the tools converted so far and none of those listed after the
    bad one; it does not raise.  When all convert, it returns them all, in
    the order of the listing. *)
Theorem getAllTools_stops_at_bad_descriptor (cfg : McpConnectionConfig) (s : State)
    (good : list jsval) (converted : list Tool) :
  disabled cfg = false ->
  Forall2 (fun d t => Client.convertToAiSdkTool d (connectionName cfg) = Ret t)
          good converted ->
  (result_of (Client.listTools (connectionName cfg)) s = Ret (JArr good) ->
   result_of (Client.getAllTools [cfg]) s = Ret converted)
  /\ (forall bad rest e,
        Client.convertToAiSdkTool bad (connectionName cfg) = Throw e ->
        result_of (Client.listTools (connectionName cfg)) s
          = Ret (JArr (good ++ bad :: rest)) ->
        result_of (Client.getAllTools [cfg]) s = Ret converted).
Proof.
  intros Hen Hgood. unfold disabled in Hen.
  assert (forall listing tail,
            Client.push_converted (connectionName cfg) listing [] = (converted, tail) ->
            result_of (Client.listTools (connectionName cfg)) s = Ret (JArr listing) ->
            result_of (Client.getAllTools [cfg]) s = Ret converted) as Hrun.
  { intros listing tail Hpush Hlist. unfold result_of in *.
    unfold Client.getAllTools, Client.getAllTools_from, Client.getAllTools_step.
    destruct (cfg_enabled cfg) as [[]|]; try discriminate Hen;
      unfold try_catch, bind, ret;
      destruct (Client.listTools (connectionName cfg) s) as [r s'];
      cbn [fst] in Hlist; subst r; cbn [Client.iterate fst snd]; now rewrite Hpush. }
  split.
  - intros Hlist. eapply Hrun; [|exact Hlist].
    rewrite <- (app_nil_r good).
    rewrite (CollectFacts.push_converted_good _ _ _ [] [] Hgood). reflexivity.
  - intros bad rest e Hbad Hlist. eapply Hrun; [|exact Hlist].
    rewrite (CollectFacts.push_converted_good _ _ _ (bad :: rest) [] Hgood).
    simpl. rewrite Hbad. reflexivity.
Qed.

Lemma getAllTools_stops_at_bad_descriptor_witness :
  let cfg := {| connectionName := "you_mcp"; cfg_description := None;
                cfg_enabled := None |} in
  let first := JObj [("name", JStr "web_search")] in
  let listing := [first; JNull; JObj [("name", JStr "web_fetch")]] in
  exists t,
    Client.convertToAiSdkTool first "you_mcp" = Ret t
    /\ result_of (Client.getAllTools [cfg])
                 (boot (sample_world [answer (JObj [("tools", JArr listing)])]))
       = Ret [t].
Proof.
  intros cfg first listing.
  set (t := {| name := "you_mcp_web_search";
               description := JStr "MCP tool: web_search";
               inputSchema := ZObject [] Passthrough;
               outputSchema := ZAny;
               execute := ExecCallTool "you_mcp" (JStr "web_search") |}).
  exists t. split; [reflexivity|].
  assert (Forall2 (fun d t => Client.convertToAiSdkTool d (connectionName cfg) = Ret t)
                  [first] [t]) as Hgood.
  { constructor; [reflexivity|constructor]. }
  apply (proj2 (getAllTools_stops_at_bad_descriptor cfg
                  (boot (sample_world [answer (JObj [("tools", JArr listing)])]))
                  [first] [t] eq_refl Hgood)
               JNull [JObj [("name", JStr "web_fetch")]]
               (TypeError "Cannot read properties of null (reading 'inputSchema')"));
    reflexivity.
Defined.

(** X6: a connection whose [enabled] is [false] is never contacted:
    over connections that are all disabled, [getAllTools] returns no tool
    and the client's [initialize] returns, and neither sends a request nor
    changes anything. *)
Theorem disabled_connections_are_not_contacted (cfgs : list McpConnectionConfig)
    (s : State) :
  Forall (fun cfg => disabled cfg = true) cfgs ->
  Client.getAllTools cfgs s = (Ret [], s)
  /\ Client.initialize cfgs s = (Ret tt, s).
Proof.
  unfold Client.getAllTools, Client.initialize, disabled.
  induction 1 as [|cfg rest Hcfg _ [IH1 IH2]]; [split; reflexivity|].
  simpl. unfold Client.getAllTools_step, bind.
  destruct (cfg_enabled cfg) as [[]|]; try discriminate Hcfg.
  unfold ret. cbn [fst snd]. split; [exact IH1|exact IH2].
Qed.

Lemma disabled_connections_are_not_contacted_witness :
  let cfgs := [{| connectionName := "you_mcp"; cfg_description := None;
                  cfg_enabled := Some false |}] in
  let s := boot (sample_world [answer (JArr [JObj [("name", JStr "web_search")]])]) in
  Client.getAllTools cfgs s = (Ret [], s) /\ Client.initialize cfgs s = (Ret tt, s).
Proof.
  intros cfgs s. apply disabled_connections_are_not_contacted.
  constructor; [reflexivity|constructor].
Defined.

(** X7: [getAllTools] over a list of connections is [getAllTools] over
    its parts, run one after the other: the tools of the first part come
    first, those of the second part follow, and trouble with one
    connection (a failed discovery, a bad descriptor) costs the other
    connections nothing. *)
Theorem getAllTools_app (a b : list McpConnectionConfig) (s : State) :
  exists ta tb,
    result_of (Client.getAllTools a) s = Ret ta
    /\ result_of (Client.getAllTools b) (state_after (Client.getAllTools a) s) = Ret tb
    /\ result_of (Client.getAllTools (a ++ b)) s = Ret (ta ++ tb)
    /\ state_after (Client.getAllTools (a ++ b)) s
       = state_after (Client.getAllTools b) (state_after (Client.getAllTools a) s).
Proof.
  unfold result_of, state_after, Client.getAllTools.
  rewrite CollectFacts.getAllTools_from_app.
  destruct (CollectFacts.getAllTools_from_acc a s) as (ta & s1 & Ha).
  destruct (CollectFacts.getAllTools_from_acc b s1) as (tb & s2 & Hb).
  exists ta, tb. rewrite (Ha []). cbn [fst snd app]. rewrite (Hb ta), (Hb []).
  repeat split.
Qed.

(** X8: sanitising the name of a tool does not change what is asked of
    the registry.  The [execute] of a converted tool calls [callTool] with
    the connection it came from and the name the registry gave, not the
    qualified name under which the catalog files it; its output schema is
    [z.any()]. *)
Theorem converted_tool_calls_registry_name (toISOString : N -> string)
    (mcpTool : jsval) (connection : string) (t : Tool) (args : jsval) (s : State) :
  Client.convertToAiSdkTool mcpTool connection = Ret t ->
  exists registry_name shown,
    JS.get mcpTool "name" = Ret registry_name
    /\ JS.toString registry_name = Ret shown
    /\ name t = Client.qualifiedName connection shown
    /\ outputSchema t = ZAny
    /\ Provider.run_execute toISOString t args s
       = Client.callTool connection registry_name args s
    /\ sent (world (state_after (Provider.run_execute toISOString t args) s))
       = sent (world s) ++ [call_request connection registry_name args (world s)].
Proof.
  unfold Client.convertToAiSdkTool. intros H.
  destruct (JS.get mcpTool "inputSchema") as [schema|]; [|discriminate]. cbn [obind] in H.
  destruct (Translator.jsonSchemaToZod _) as [z|]; [|discriminate]. cbn [obind] in H.
  destruct (JS.get mcpTool "name") as [nm|] eqn:Hnm; [|discriminate]. cbn [obind] in H.
  destruct (JS.toString nm) as [shown|] eqn:Hshown; [|discriminate]. cbn [obind] in H.
  destruct (JS.get mcpTool "description") as [descr|]; [|discriminate]. cbn [obind] in H.
  injection H as <-. exists nm, shown.
  split; [reflexivity|]. split; [exact Hshown|]. split; [reflexivity|].
  split; [reflexivity|]. split; [reflexivity|].
  unfold Provider.run_execute, state_after. cbn [execute].
  destruct (CallFacts.callTool_frame connection nm args s) as [r ->]. reflexivity.
Qed.

Lemma converted_tool_calls_registry_name_witness :
  exists t,
    Client.convertToAiSdkTool (JObj [("name", JStr "web-search")]) "you_mcp" = Ret t
    /\ name t = "you_mcp_web_search"
    /\ sent (world (state_after
                     (Provider.run_execute (fun _ => "2023-11-14T22:13:20.040Z") t
                        (JObj [("query", JStr "rocq")]))
                     (boot (sample_world []))))
       = [call_request "you_mcp" (JStr "web-search") (JObj [("query", JStr "rocq")])
            (sample_world [])].
Proof.
  eexists. split; [reflexivity|]. split; [reflexivity|].
  edestruct (converted_tool_calls_registry_name (fun _ => "2023-11-14T22:13:20.040Z")
               (JObj [("name", JStr "web-search")]) "you_mcp" _
               (JObj [("query", JStr "rocq")]) (boot (sample_world [])) eq_refl)
    as (nm & shown & Hnm & _ & _ & _ & _ & Hsent).
  injection Hnm as <-. exact Hsent.
Defined.

(** X9: the cache is kept per source.  A discovery for one source,
    whatever its outcome, leaves the entry and the expiry of every other
    source as they were, so it neither serves nor spoils their
    discoveries. *)
Theorem cache_is_per_source (connectionName other : string) (s : State) :
  other <> connectionName ->
  cachedTools (client (state_after (Client.listTools connectionName) s)) !! other
  = cachedTools (client s) !! other
  /\ toolCacheExpiry (client (state_after (Client.listTools connectionName) s)) !! other
     = toolCacheExpiry (client s) !! other.
Proof.
  intros Hne. unfold state_after.
  destruct (cache_hit connectionName s) eqn:Hhit.
  - destruct (DiscoveryFacts.cache_hit_cached _ _ Hhit) as (c & e & Hc & _).
    rewrite (DiscoveryFacts.listTools_hit _ _ _ Hhit Hc). split; reflexivity.
  - destruct (DiscoveryFacts.listTools_miss _ _ Hhit) as (v & c & -> & _ & Habort & Hstore).
    cbn [snd client].
    destruct (discovery_aborts (network (world s))).
    + rewrite (Habort eq_refl). split; reflexivity.
    + destruct (Hstore eq_refl) as (stored & _ & -> & _). cbn [cachedTools toolCacheExpiry].
      split; apply lookup_insert_ne; congruence.
Qed.

Lemma cache_is_per_source_witness :
  let s := boot (sample_world [answer (JArr [JObj [("name", JStr "lookup")]])]) in
  cachedTools (client (state_after (Client.listTools "docs_mcp") s)) !! "you_mcp"
  = cachedTools (client s) !! "you_mcp"
  /\ toolCacheExpiry (client (state_after (Client.listTools "docs_mcp") s)) !! "you_mcp"
     = toolCacheExpiry (client s) !! "you_mcp".
Proof.
  intros s. apply cache_is_per_source. discriminate.
Defined.

(** ** The tool map *)

Module CatalogFacts.
Import ShapeFacts LifecycleFacts.

Lemma assoc_load_other n loaded : forall held,
  ~ In n (map name loaded) -> JS.assoc n (load loaded held) = JS.assoc n held.
Proof.
  induction loaded as [|t rest IH]; intros held Hn; [reflexivity|].
  cbn [load fold_left]. fold (load rest (JS.set (name t) t held)).
  rewrite IH by (intros H; apply Hn; now right).
  apply assoc_set_ne. intros ->. apply Hn. now left.
Qed.

Lemma assoc_load_last l1 t l2 held :
  ~ In (name t) (map name l2) ->
  JS.assoc (name t) (load (l1 ++ t :: l2) held) = Some t.
Proof.
  intros Hn. unfold load. rewrite fold_left_app. cbn [fold_left].
  fold (load l1 held). fold (load l2 (JS.set (name t) t (load l1 held))).
  rewrite assoc_load_other by assumption. apply assoc_set_eq.
Qed.

Lemma set_entries {A} (P : string * A -> Prop) k v l :
  P (k, v) -> Forall P l -> Forall P (JS.set k v l).
Proof.
  intros Hkv Hl. induction Hl as [|[k' v'] r Hx Hr IH]; simpl.
  - constructor; [assumption|constructor].
  - destruct (String.eqb k k'); constructor; assumption.
Qed.

Lemma set_ok t held :
  word_only (name t) = true -> catalog_ok held -> catalog_ok (JS.set (name t) t held).
Proof.
  intros Hw [Hnd Hall]. split; [now apply set_keys_NoDup|].
  apply set_entries; [split; [reflexivity|assumption]|assumption].
Qed.

Lemma load_ok loaded : forall held,
  Forall (fun t => word_only (name t) = true) loaded ->
  catalog_ok held -> catalog_ok (load loaded held).
Proof.
  induction loaded as [|t rest IH]; intros held Hl Hok; [assumption|].
  inversion Hl; subst. cbn [load fold_left]. apply IH; [assumption|].
  now apply set_ok.
Qed.

Lemma installed_ok conn loaded held :
  Forall (fun t => word_only (name t) = true) loaded ->
  catalog_ok held -> catalog_ok (installed conn loaded held).
Proof.
  intros Hl Hok. unfold installed. fold (load loaded held).
  pose proof (load_ok _ _ Hl Hok) as Hload.
  destruct ((length loaded =? 0)%nat && String.eqb (conn_name conn) "you_mcp");
    [|assumption].
  apply (set_ok Provider.web_fetch_tool); [reflexivity|].
  apply (set_ok Provider.web_search_tool); [reflexivity|assumption].
Qed.

(** Every tool that comes out of a conversion has a name made of
    [[a-zA-Z0-9_]] only. *)
Lemma converted_name d connection t :
  Client.convertToAiSdkTool d connection = Ret t -> word_only (name t) = true.
Proof.
  unfold Client.convertToAiSdkTool. intros H.
  destruct (JS.get d "inputSchema"); [|discriminate]. cbn [obind] in H.
  destruct (Translator.jsonSchemaToZod _); [|discriminate]. cbn [obind] in H.
  destruct (JS.get d "name"); [|discriminate]. cbn [obind] in H.
  destruct (JS.toString _); [|discriminate]. cbn [obind] in H.
  destruct (JS.get d "description"); [|discriminate]. cbn [obind] in H.
  injection H as <-. apply NameFacts.replace_nonword_word_only.
Qed.

Lemma push_converted_names connection ds : forall acc,
  Forall (fun t => word_only (name t) = true) acc ->
  Forall (fun t => word_only (name t) = true)
         (fst (Client.push_converted connection ds acc)).
Proof.
  induction ds as [|d rest IH]; intros acc Hacc; simpl; [assumption|].
  destruct (Client.convertToAiSdkTool d connection) as [t|e] eqn:Hd; [|assumption].
  apply IH. apply Forall_app. split; [assumption|].
  constructor; [eapply converted_name, Hd|constructor].
Qed.

Lemma getAllTools_names cfgs : forall acc s loaded s',
  Forall (fun t => word_only (name t) = true) acc ->
  Client.getAllTools_from cfgs acc s = (Ret loaded, s') ->
  Forall (fun t => word_only (name t) = true) loaded.
Proof.
  induction cfgs as [|cfg rest IH]; intros acc s loaded s' Hacc; simpl.
  - unfold ret. intros [= <- _]. assumption.
  - unfold bind. destruct (Client.getAllTools_step cfg acc s) as [[acc1|e] s1] eqn:Hstep;
      [|discriminate].
    apply IH. revert Hstep. unfold Client.getAllTools_step.
    destruct (match cfg_enabled cfg with Some false => false | _ => true end).
    + unfold try_catch, bind, ret.
      destruct (Client.listTools (connectionName cfg) s) as [[v|e] s2].
      * destruct (Client.iterate v); intros [= <- _]; [|assumption].
        now apply push_converted_names.
      * intros [= <- _]. assumption.
    + unfold ret. intros [= <- _]. assumption.
Qed.

Lemma loadTools_steps_ok conns : forall c w held0,
  catalog_ok held0 ->
  exists held c' w',
    catalog_ok held
    /\ forall flag,
         for_each conns Provider.loadTools_step
           {| provider := {| tools := held0; initialized := flag |};
              client := c; world := w |}
         = (Ret tt, {| provider := {| tools := held; initialized := flag |};
                       client := c'; world := w' |}).
Proof.
  induction conns as [|conn rest IH]; intros c w held0 Hok; simpl.
  - exists held0, c, w. split; [assumption|reflexivity].
  - destruct (loadTools_step_run conn c w) as (loaded & c1 & w1 & _ & Hget & H1).
    assert (Forall (fun t => word_only (name t) = true) loaded) as Hnames.
    { eapply (getAllTools_names _ []); [constructor|].
      apply (Hget {| tools := []; initialized := false |}). }
    destruct (IH c1 w1 (installed conn loaded held0)) as (held & c2 & w2 & Hok2 & H2).
    { now apply installed_ok. }
    exists held, c2, w2. split; [assumption|].
    intros flag. unfold bind. rewrite H1. simpl. apply H2.
Qed.

Lemma catalog_ok_nil : catalog_ok [].
Proof. split; constructor. Qed.

Lemma initialize_ok s :
  catalog_ok (tools (provider s)) ->
  catalog_ok (tools (provider (state_after Provider.initialize s))).
Proof.
  intros Hok. unfold state_after.
  destruct (initialized (provider s)) eqn:Hflag.
  - now rewrite initialize_done.
  - destruct s as [[held0 flag] c w]. cbn [provider initialized tools] in *. subst flag.
    destruct (enabled_in w) eqn:Hen.
    + destruct (quiet_client_initialize
                  (map Provider.to_config (List.filter conn_enabled (connections w))) c w)
        as ([] & c1 & w1 & _ & H1).
      destruct (loadTools_steps_ok (List.filter conn_enabled (connections w)) c1 w1 []
                  catalog_ok_nil) as (held & c2 & w2 & Hheld & H2).
      unfold Provider.initialize, isMcpEnabled, getEnabledMcpConnections, try_catch, bind,
        gets.
      cbn [provider client world initialized]. unfold enabled_in in Hen. rewrite Hen.
      cbn [negb provider client world initialized]. rewrite H1.
      unfold Provider.loadTools, bind, modify, Provider.set_tools, set_provider.
      cbn [provider client world initialized tools]. rewrite H2.
      cbn [snd provider tools Provider.set_initialized set_provider]. exact Hheld.
    + now rewrite initialize_disabled_run.
Qed.

Lemma set_fresh {A} k (v : A) l : JS.assoc k l = None -> JS.set k v l = l ++ [(k, v)].
Proof.
  induction l as [|[k' v'] r IH]; simpl; [reflexivity|].
  destruct (String.eqb k k'); [discriminate|]. intros H. now rewrite IH.
Qed.

Lemma assoc_app_none {A} k (l1 l2 : list (string * A)) :
  JS.assoc k l1 = None -> JS.assoc k l2 = None -> JS.assoc k (l1 ++ l2) = None.
Proof.
  induction l1 as [|[k' v'] r IH]; simpl; [auto|].
  destruct (String.eqb k k'); [discriminate|auto].
Qed.

(** Copying a map with distinct keys entry by entry gives the map. *)
Lemma copy_entries {A} (l : list (string * A)) : forall acc,
  List.NoDup (map fst l) ->
  (forall k, In k (map fst l) -> JS.assoc k acc = None) ->
  fold_left (fun held entry => JS.set (fst entry) (snd entry) held) l acc = acc ++ l.
Proof.
  induction l as [|[k v] r IH]; intros acc Hnd Hfresh; simpl.
  - now rewrite app_nil_r.
  - inversion Hnd as [|? ? Hk Hr]; subst.
    rewrite set_fresh by (apply Hfresh; now left).
    rewrite IH; [now rewrite <- app_assoc|assumption|].
    intros k' Hk'. apply assoc_app_none; [apply Hfresh; now right|].
    simpl. destruct (String.eqb_spec k' k) as [->|Hne]; [contradiction|reflexivity].
Qed.

End CatalogFacts.

(** X10: the catalog stays well formed.  If the keys of the tool map are
    distinct, every tool sits under its own name and every name is made of
    [[a-zA-Z0-9_]] only, the same holds after [initialize] and after
    [refresh], whatever the registry answers; the empty catalog of a
    newly started process is well formed. *)
Theorem catalog_stays_ok (s : State) :
  catalog_ok (tools (provider s)) ->
  catalog_ok (tools (provider (state_after Provider.initialize s)))
  /\ catalog_ok (tools (provider (state_after Provider.refresh s))).
Proof.
  intros Hok. split; [now apply CatalogFacts.initialize_ok|].
  change (state_after Provider.refresh s)
    with (state_after Provider.initialize
            {| provider := {| tools := tools (provider s); initialized := false |};
               client := {| cachedTools := ∅; toolCacheExpiry := ∅ |};
               world := world s |}).
  now apply CatalogFacts.initialize_ok.
Qed.

Lemma catalog_stays_ok_witness :
  let listing := [JObj [("name", JStr "web-search")]; JObj [("name", JStr "web_search")]] in
  let s := boot (sample_world [answer (JArr listing)]) in
  catalog_ok (tools (provider (state_after Provider.initialize s)))
  /\ catalog_ok (tools (provider (state_after Provider.refresh s))).
Proof.
  intros listing s. apply catalog_stays_ok. apply CatalogFacts.catalog_ok_nil.
Defined.

(** X11: [getTools] on an initialized catalog is a copy of the tool map.
    With distinct keys (as a [Map] has them) it returns the entries of the
    map, in the order of the map, so its names are those of
    [getToolNames] and each name has the tool [getTool] gives. *)
Theorem getTools_is_the_map (s : State) :
  initialized (provider s) = true ->
  List.NoDup (map fst (tools (provider s))) ->
  Provider.getTools s = tools (provider s)
  /\ map fst (Provider.getTools s) = Provider.getToolNames s
  /\ forall n, JS.assoc n (Provider.getTools s) = Provider.getTool s n.
Proof.
  intros Hflag Hnd.
  assert (Provider.getTools s = tools (provider s)) as Heq.
  { unfold Provider.getTools. rewrite Hflag. cbn [negb].
    now rewrite (CatalogFacts.copy_entries _ [] Hnd). }
  rewrite Heq. repeat split.
Qed.

Lemma getTools_is_the_map_witness :
  let s := state_after Provider.initialize (boot (sample_world [refusal; refusal])) in
  Provider.getTools s = tools (provider s)
  /\ map fst (Provider.getTools s) = Provider.getToolNames s
  /\ forall n, JS.assoc n (Provider.getTools s) = Provider.getTool s n.
Proof.
  intros s. apply getTools_is_the_map; [reflexivity|].
  apply (proj1 (CatalogFacts.initialize_ok (boot (sample_world [refusal; refusal]))
                  CatalogFacts.catalog_ok_nil)).
Defined.

Module LoadFacts.
Import LifecycleFacts.

(** What one round of the loop of [loadTools] leaves in the catalog *)
Lemma loadTools_step_tools conn s loaded :
  result_of (Client.getAllTools [Provider.to_config conn]) s = Ret loaded ->
  tools (provider (state_after (Provider.loadTools_step conn) s))
  = installed conn loaded (tools (provider s)).
Proof.
  destruct s as [p c w]. unfold result_of, state_after.
  destruct (loadTools_step_run conn c w) as (loaded' & c' & w' & _ & Hget & Hstep).
  rewrite Hget, Hstep. cbn [fst snd provider tools]. now intros [= ->].
Qed.

(** Without the fallback, the round puts the loaded tools in and does
    nothing else. *)
Lemma loadTools_step_load conn s loaded :
  result_of (Client.getAllTools [Provider.to_config conn]) s = Ret loaded ->
  conn_name conn <> "you_mcp" \/ loaded <> [] ->
  tools (provider (state_after (Provider.loadTools_step conn) s))
  = load loaded (tools (provider s)).
Proof.
  intros Hloaded Hcase. rewrite (loadTools_step_tools _ _ _ Hloaded). unfold installed.
  fold (load loaded (tools (provider s))). destruct Hcase as [Hname|Hne].
  - apply String.eqb_neq in Hname. rewrite Hname. now rewrite andb_false_r.
  - destruct loaded; [congruence|reflexivity].
Qed.

End LoadFacts.

(** X12: loading one connection leaves the tools of the others alone.
    A tool already in the catalog is still there, unchanged, after a round
    of the loop of [loadTools], unless the connection brought a tool of
    the same name, or the round installed the fallback tools and the name
    is one of theirs.  The fallback tools are installed for ['you_mcp']
    only: a connection of another name that brings nothing leaves the
    catalog as it was. *)
Theorem loading_keeps_other_tools (conn : McpConnection) (s : State)
    (loaded : list Tool) :
  result_of (Client.getAllTools [Provider.to_config conn]) s = Ret loaded ->
  let s' := state_after (Provider.loadTools_step conn) s in
  (forall n t,
      Provider.getTool s n = Some t ->
      ~ In n (map name loaded) ->
      n <> "web_search" -> n <> "web_fetch" ->
      Provider.getTool s' n = Some t)
  /\ (conn_name conn <> "you_mcp" -> loaded = [] ->
      tools (provider s') = tools (provider s))
  /\ (conn_name conn <> "you_mcp" \/ loaded <> [] ->
      tools (provider s') = load loaded (tools (provider s))).
Proof.
  intros Hloaded s'. subst s'. unfold Provider.getTool.
  rewrite (LoadFacts.loadTools_step_tools _ _ _ Hloaded). unfold installed.
  fold (load loaded (tools (provider s))).
  split; [|split].
  - intros n t Hn Hnew Hs Hf.
    assert (JS.assoc n (load loaded (tools (provider s))) = Some t) as Hkept.
    { now rewrite CatalogFacts.assoc_load_other. }
    destruct ((length loaded =? 0)%nat && String.eqb (conn_name conn) "you_mcp");
      [|assumption].
    rewrite !ShapeFacts.assoc_set_ne by assumption. assumption.
  - intros Hname ->. apply String.eqb_neq in Hname. rewrite Hname.
    now rewrite andb_false_r.
  - intros [Hname|Hne].
    + apply String.eqb_neq in Hname. rewrite Hname. now rewrite andb_false_r.
    + destruct loaded; [congruence|reflexivity].
Qed.

Lemma loading_keeps_other_tools_witness :
  let docs := {| conn_name := "docs_mcp"; conn_description := "documentation lookup";
                 conn_enabled := true; conn_type := external |} in
  let s := state_after Provider.initialize (boot (sample_world [refusal; refusal])) in
  Provider.getTool (state_after (Provider.loadTools_step docs) s) "web_search"
  = Some Provider.web_search_tool.
Proof.
  intros docs s.
  assert (tools (provider (state_after (Provider.loadTools_step docs) s))
          = tools (provider s)) as Heq.
  { apply (proj1 (proj2 (loading_keeps_other_tools docs s [] eq_refl)));
      [discriminate|reflexivity]. }
  unfold Provider.getTool. rewrite Heq. reflexivity.
Defined.

(** X13: when a connection brings two tools whose qualified names
    coincide, the catalog keeps one entry under that name, and it is the
    later tool: after a round of the loop of [loadTools], [getTool] of the
    name of a loaded tool gives that tool if no tool listed after it has
    the same name. *)
Theorem later_tool_wins (conn : McpConnection) (s : State)
    (before : list Tool) (t : Tool) (after : list Tool) :
  result_of (Client.getAllTools [Provider.to_config conn]) s
    = Ret (before ++ t :: after) ->
  ~ In (name t) (map name after) ->
  Provider.getTool (state_after (Provider.loadTools_step conn) s) (name t) = Some t.
Proof.
  intros Hloaded Hlast. unfold Provider.getTool.
  rewrite (LoadFacts.loadTools_step_load _ _ _ Hloaded) by (right; now destruct before).
  now apply CatalogFacts.assoc_load_last.
Qed.

Lemma later_tool_wins_witness :
  let listing := [JObj [("name", JStr "web-search"); ("description", JStr "first")];
                  JObj [("name", JStr "web_search"); ("description", JStr "second")]] in
  let conn := {| conn_name := "you_mcp"; conn_description := "registry";
                 conn_enabled := true; conn_type := external |} in
  let s := boot (sample_world [answer (JArr listing)]) in
  let s' := state_after (Provider.loadTools_step conn) s in
  Provider.getToolNames s' = ["you_mcp_web_search"]
  /\ option_map description (Provider.getTool s' "you_mcp_web_search")
     = Some (JStr "second").
Proof.
  intros listing conn s s'. split; [reflexivity|].
  set (first := {| name := "you_mcp_web_search"; description := JStr "first";
                   inputSchema := ZObject [] Passthrough; outputSchema := ZAny;
                   execute := ExecCallTool "you_mcp" (JStr "web-search") |}).
  set (second := {| name := "you_mcp_web_search"; description := JStr "second";
                    inputSchema := ZObject [] Passthrough; outputSchema := ZAny;
                    execute := ExecCallTool "you_mcp" (JStr "web_search") |}).
  replace (Provider.getTool s' "you_mcp_web_search") with (Some second); [reflexivity|].
  symmetry. exact (later_tool_wins conn s [first] second [] eq_refl (fun H => H)).
Defined.

Module StartFacts.
Import LifecycleFacts.

Lemma client_initialize_single cfg s :
  disabled cfg = false ->
  Client.initialize [cfg] s = (Ret tt, state_after (Client.listTools (connectionName cfg)) s).
Proof.
  unfold disabled, Client.initialize, state_after. intros Hen. cbn [for_each].
  destruct (DiscoveryFacts.listTools_returns (connectionName cfg) s) as (v & s' & Hv).
  destruct (cfg_enabled cfg) as [[]|]; try discriminate Hen;
    unfold try_catch, bind, ret; rewrite Hv; reflexivity.
Qed.

Lemma getAllTools_single_state cfg s :
  disabled cfg = false ->
  state_after (Client.getAllTools [cfg]) s
  = state_after (Client.listTools (connectionName cfg)) s.
Proof.
  unfold disabled, Client.getAllTools, Client.getAllTools_from, Client.getAllTools_step,
    state_after.
  intros Hen.
  destruct (DiscoveryFacts.listTools_returns (connectionName cfg) s) as (v & s' & Hv).
  destruct (cfg_enabled cfg) as [[]|]; try discriminate Hen;
    unfold try_catch, bind, ret; rewrite Hv; destruct (Client.iterate v); reflexivity.
Qed.

(** With one enabled connection, [initialize] does to the cache and to
    the world what two discoveries in a row do: the pre-fetch of the
    client and the one of [loadTools]. *)
Lemma initialize_single s conn :
  initialized (provider s) = false ->
  enabled_in (world s) = true ->
  List.filter conn_enabled (connections (world s)) = [conn] ->
  world (state_after Provider.initialize s)
  = world (state_after (Client.listTools (conn_name conn))
             (state_after (Client.listTools (conn_name conn)) s))
  /\ client (state_after Provider.initialize s)
     = client (state_after (Client.listTools (conn_name conn))
                 (state_after (Client.listTools (conn_name conn)) s)).
Proof.
  destruct s as [[held0 flag] c w]. cbn [provider initialized world].
  intros -> Hen Hconns.
  assert (disabled (Provider.to_config conn) = false) as Hcfg.
  { unfold disabled. cbn [Provider.to_config cfg_enabled].
    now rewrite (FallbackFacts.filter_singleton_enabled _ _ Hconns). }
  destruct (quiet_client_initialize [Provider.to_config conn] c w)
    as ([] & c1 & w1 & _ & H1).
  destruct (loadTools_step_run conn c1 w1) as (loaded & c2 & w2 & _ & Hget & Hstep).
  pose proof (client_initialize_single (Provider.to_config conn)
                {| provider := {| tools := held0; initialized := false |};
                   client := c; world := w |} Hcfg) as Hpre.
  rewrite H1 in Hpre. injection Hpre as Hpre. cbn [Provider.to_config connectionName] in Hpre.
  rewrite <- Hpre.
  pose proof (getAllTools_single_state (Provider.to_config conn)
                {| provider := {| tools := held0; initialized := false |};
                   client := c1; world := w1 |} Hcfg) as Hload.
  unfold state_after at 1 in Hload. rewrite Hget in Hload.
  cbn [snd Provider.to_config connectionName] in Hload. rewrite <- Hload.
  unfold state_after, Provider.initialize, isMcpEnabled, getEnabledMcpConnections,
    try_catch, bind, gets.
  cbn [provider client world initialized]. unfold enabled_in in Hen. rewrite Hen.
  cbn [negb provider client world initialized]. rewrite Hconns. cbn [map]. rewrite H1.
  unfold Provider.loadTools, bind, modify, Provider.set_tools, set_provider.
  cbn [provider client world initialized tools for_each]. unfold bind.
  rewrite Hstep. split; reflexivity.
Qed.

End StartFacts.

(** X14: how many discovery requests a start-up costs.  With one enabled
    connection and nothing usable in the cache, [initialize] sends one
    request when the pre-fetch gets as far as the cache (the load is then
    served from the entry just stored), and two, the second a retry by
    the load, when the pre-fetch fails before that. *)
Theorem initialize_request_count (s : State) (conn : McpConnection) :
  initialized (provider s) = false ->
  enabled_in (world s) = true ->
  List.filter conn_enabled (connections (world s)) = [conn] ->
  cache_hit (conn_name conn) s = false ->
  (discovery_aborts (network (world s)) = false ->
   sent (world (state_after Provider.initialize s))
   = sent (world s) ++ [list_request (conn_name conn) (world s)])
  /\ (discovery_aborts (network (world s)) = true ->
      sent (world (state_after Provider.initialize s))
      = sent (world s) ++ [list_request (conn_name conn) (world s);
                           list_request (conn_name conn) (world s)]).
Proof.
  intros Hflag Hen Hconns Hmiss.
  destruct (StartFacts.initialize_single s conn Hflag Hen Hconns) as [-> _].
  unfold state_after.
  destruct (DiscoveryFacts.listTools_miss _ _ Hmiss) as (v & c1 & -> & _ & Habort & Hstore).
  cbn [snd]. split; intros Ha.
  - destruct (Hstore Ha) as (stored & Hv & -> & _).
    erewrite DiscoveryFacts.listTools_hit; [reflexivity| |].
    + unfold cache_hit, Client.cache_is_fresh. cbn [client cachedTools toolCacheExpiry world].
      rewrite !lookup_insert_eq. rewrite Hv. cbn [andb].
      apply andb_true_iff. split.
      * apply negb_true_iff, N.eqb_neq. unfold Client.CACHE_DURATION. lia.
      * apply N.ltb_lt. unfold Client.CACHE_DURATION. lia.
    + cbn [client cachedTools]. apply lookup_insert_eq.
  - rewrite (Habort Ha).
    match goal with |- sent (world (snd (Client.listTools _ ?s1))) = _ =>
      assert (cache_hit (conn_name conn) s1 = false) as Hmiss1 end.
    { unfold cache_hit in *. cbn [client world after_fetch clock].
      eapply CacheFacts.stale_stays_stale; [|exact Hmiss].
      destruct (network (world s)); lia. }
    destruct (DiscoveryFacts.listTools_miss _ _ Hmiss1) as (v1 & c2 & -> & _).
    cbn [snd world after_fetch sent list_request hostUrl token].
    now rewrite <- app_assoc.
Qed.

Lemma initialize_request_count_witness :
  (let s := boot (sample_world [answer (JArr [JObj [("name", JStr "web_search")]])]) in
   sent (world (state_after Provider.initialize s))
   = sent (world s) ++ [list_request "you_mcp" (world s)])
  /\ (let s := boot (sample_world [refusal; answer (JArr [])]) in
      sent (world (state_after Provider.initialize s))
      = sent (world s) ++ [list_request "you_mcp" (world s);
                           list_request "you_mcp" (world s)]).
Proof.
  set (conn := {| conn_name := "you_mcp";
                  conn_description :=
                    "Unity Catalog MCP server for web search, content fetching, and real-time information";
                  conn_enabled := true; conn_type := external |}).
  split; intros s.
  - apply (proj1 (initialize_request_count s conn eq_refl eq_refl eq_refl eq_refl)).
    reflexivity.
  - apply (proj2 (initialize_request_count s conn eq_refl eq_refl eq_refl eq_refl)).
    reflexivity.
Defined.

(** X15: the fallback tools never raise on an object.  [web_search]
    returns a value for every argument value and every state, the result
    of the registry when the call succeeds; [web_fetch] does so for every
    argument value other than [null] and [undefined].  For either tool,
    and whatever the outcome, one request goes to the ['you_mcp']
    endpoint, under the fixed name of the tool, and neither the catalog
    nor the cache changes. *)
Theorem fallback_tools_return (toISOString : N -> string) (args : jsval) (s : State) :
  (exists v, result_of (Provider.run_execute toISOString Provider.web_search_tool args) s
             = Ret v)
  /\ (nullish args = false ->
      exists v, result_of (Provider.run_execute toISOString Provider.web_fetch_tool args) s
                = Ret v)
  /\ (forall v s',
        Client.callTool "you_mcp" (JStr "web_search") args s = (Ret v, s') ->
        Provider.run_execute toISOString Provider.web_search_tool args s = (Ret v, s'))
  /\ (forall v s',
        Client.callTool "you_mcp" (JStr "web_fetch") args s = (Ret v, s') ->
        Provider.run_execute toISOString Provider.web_fetch_tool args s = (Ret v, s'))
  /\ state_after (Provider.run_execute toISOString Provider.web_search_tool args) s
     = {| provider := provider s; client := client s;
          world := after_fetch (call_request "you_mcp" (JStr "web_search") args (world s))
                               (world s) |}
  /\ state_after (Provider.run_execute toISOString Provider.web_fetch_tool args) s
     = {| provider := provider s; client := client s;
          world := after_fetch (call_request "you_mcp" (JStr "web_fetch") args (world s))
                               (world s) |}.
Proof.
  unfold result_of, state_after, Provider.run_execute.
  cbn [execute Provider.web_search_tool Provider.web_fetch_tool].
  unfold Provider.execute_web_search, Provider.execute_web_fetch, try_catch, bind, ret, lift,
    Date_now, gets.
  destruct (CallFacts.callTool_frame "you_mcp" (JStr "web_search") args s) as [r1 H1].
  destruct (CallFacts.callTool_frame "you_mcp" (JStr "web_fetch") args s) as [r2 H2].
  rewrite H1, H2. split; [|split; [|split; [|split; [|split]]]].
  - destruct r1; cbn [fst]; eauto.
  - intros Hargs. destruct r2; cbn [fst]; [eauto|].
    destruct args; try discriminate Hargs; cbn [JS.get fst]; eauto.
  - intros v s' [= -> <-]. reflexivity.
  - intros v s' [= -> <-]. reflexivity.
  - destruct r1; reflexivity.
  - destruct r2; [reflexivity|]. destruct (JS.get args "url"); reflexivity.
Qed.

Lemma fallback_tools_return_witness :
  let args := JObj [("url", JStr "https://example.org")] in
  let run := Provider.run_execute (fun _ => "2023-11-14T22:13:20.015Z")
               Provider.web_fetch_tool args in
  (exists v, result_of run (boot (sample_world [])) = Ret v)
  /\ sent (world (state_after run (boot (sample_world []))))
     = [call_request "you_mcp" (JStr "web_fetch") args (sample_world [])].
Proof.
  intros args run.
  destruct (fallback_tools_return (fun _ => "2023-11-14T22:13:20.015Z") args
              (boot (sample_world []))) as (_ & Hret & _ & _ & _ & Hstate).
  split; [apply Hret; reflexivity|].
  unfold run. rewrite Hstate. reflexivity.
Defined.

(** X16: what the input schemas of the fallback tools let through.
    [web_search] wants a string [query]; an absent [maxResults] is filled
    in as 10 and keys outside the schema are dropped.  [web_fetch] wants a
    [url] that is a string and a URL; absent flags are filled in as
    [extractText: true] and [summarize: false].  A payload without a
    string [query], respectively [url], is rejected. *)
Theorem fallback_input_schemas (is_url : string -> bool) (fields : list (string * jsval)) :
  (forall q,
      JS.assoc "query" fields = Some (JStr q) ->
      JS.assoc "maxResults" fields = None ->
      zod_parse is_url (inputSchema Provider.web_search_tool) (JObj fields)
      = Some (JObj [("query", JStr q); ("maxResults", JNum 10)]))
  /\ ((forall q, JS.assoc "query" fields <> Some (JStr q)) ->
      zod_parse is_url (inputSchema Provider.web_search_tool) (JObj fields) = None)
  /\ (forall u,
        JS.assoc "url" fields = Some (JStr u) ->
        JS.assoc "extractText" fields = None ->
        JS.assoc "summarize" fields = None ->
        zod_parse is_url (inputSchema Provider.web_fetch_tool) (JObj fields)
        = if is_url u
          then Some (JObj [("url", JStr u); ("extractText", JBool true);
                           ("summarize", JBool false)])
          else None)
  /\ ((forall u, JS.assoc "url" fields <> Some (JStr u)) ->
      zod_parse is_url (inputSchema Provider.web_fetch_tool) (JObj fields) = None).
Proof.
  split; [|split; [|split]].
  - intros q Hq Hm. simpl. rewrite Hq, Hm. reflexivity.
  - intros Hq. simpl. destruct (JS.assoc "query" fields) as [[]|]; try reflexivity.
    exfalso. eapply Hq. reflexivity.
  - intros u Hu He Hs. simpl. rewrite Hu, He, Hs. simpl.
    destruct (is_url u); reflexivity.
  - intros Hu. simpl. destruct (JS.assoc "url" fields) as [[]|]; try reflexivity.
    exfalso. eapply Hu. reflexivity.
Qed.

Lemma fallback_input_schemas_witness :
  zod_parse (fun _ => true) (inputSchema Provider.web_search_tool)
    (JObj [("query", JStr "rocq"); ("verbose", JBool true)])
  = Some (JObj [("query", JStr "rocq"); ("maxResults", JNum 10)])
  /\ zod_parse (fun _ => true) (inputSchema Provider.web_fetch_tool)
       (JObj [("address", JStr "https://example.org")])
     = None.
Proof.
  split.
  - apply (proj1 (fallback_input_schemas (fun _ => true)
                    [("query", JStr "rocq"); ("verbose", JBool true)])); reflexivity.
  - apply (proj2 (proj2 (proj2 (fallback_input_schemas (fun _ => true)
                                  [("address", JStr "https://example.org")])))).
    discriminate.
Defined.

(** ** The HTTP routes *)

Module RouteFacts.
Import LifecycleFacts.

Lemma refresh_returns s :
  Provider.refresh s = (Ret tt, state_after Provider.refresh s).
Proof.
  unfold state_after.
  change (Provider.refresh s)
    with (Provider.initialize
            {| provider := {| tools := tools (provider s); initialized := false |};
               client := {| cachedTools := ∅; toolCacheExpiry := ∅ |};
               world := world s |}).
  destruct (initialize_sets_flag
              {| provider := {| tools := tools (provider s); initialized := false |};
                 client := {| cachedTools := ∅; toolCacheExpiry := ∅ |};
                 world := world s |}) as (s' & -> & _).
  reflexivity.
Qed.

End RouteFacts.

(** X17: [POST /api/mcp/refresh] never answers 500.  Whatever the state
    and whatever the registry does, the handler answers 200 with
    [success: true], the names of the tools the catalog holds after the
    refresh, in the order of the catalog, and their number; the state it
    leaves is the one [refresh] leaves. *)
Theorem refresh_route_succeeds (s : State) :
  Routes.refresh_route s
  = (Ret {| Routes.code := 200;
            Routes.payload :=
              JObj [("success", JBool true);
                    ("message", JStr "MCP tools refreshed successfully");
                    ("toolCount",
                     JNum (Z.of_nat (length (Provider.getToolNames
                                               (state_after Provider.refresh s)))));
                    ("tools",
                     JArr (map JStr (Provider.getToolNames
                                       (state_after Provider.refresh s))))] |},
     state_after Provider.refresh s).
Proof.
  unfold Routes.refresh_route, try_catch, bind, gets, ret.
  rewrite RouteFacts.refresh_returns. reflexivity.
Qed.

(** X18: the two read routes answer 200 and change nothing, and they
    count differently.  [/status] counts the entries of the tool map,
    whatever the flag; [/tools] goes through [getTools], so it reports no
    tool while [initialized] is [false].  Once the catalog is initialized
    (and its keys are distinct) the two counts agree, and the names in
    [/tools] are those in [/status]. *)
Theorem status_and_tools_routes (s : State) :
  exists st tl,
    Routes.status s = (Ret st, s)
    /\ Routes.tools_route s = (Ret tl, s)
    /\ Routes.code st = 200%N /\ Routes.code tl = 200%N
    /\ field "enabled" (Routes.payload st) = JBool (enabled_in (world s))
    /\ field "tools" (Routes.payload st) = JArr (map JStr (Provider.getToolNames s))
    /\ field "toolCount" (Routes.payload st)
       = JNum (Z.of_nat (length (tools (provider s))))
    /\ (initialized (provider s) = false ->
        field "tools" (Routes.payload tl) = JArr []
        /\ field "count" (Routes.payload tl) = JNum 0)
    /\ (initialized (provider s) = true ->
        List.NoDup (map fst (tools (provider s))) ->
        field "count" (Routes.payload tl) = field "toolCount" (Routes.payload st)
        /\ field "tools" (Routes.payload tl)
           = JArr (map Routes.tool_detail (tools (provider s)))).
Proof.
  unfold Routes.status, Routes.tools_route, try_catch, bind, gets, ret, isMcpEnabled,
    getEnabledMcpConnections.
  cbn [fst snd]. do 2 eexists.
  split; [reflexivity|]. split; [reflexivity|].
  split; [reflexivity|]. split; [reflexivity|].
  split; [reflexivity|]. split; [reflexivity|].
  split.
  { cbn [Routes.payload field JS.assoc String.eqb Ascii.eqb Bool.eqb].
    unfold Routes.count_json, Provider.getToolNames. now rewrite length_map. }
  split.
  - intros Hflag. unfold Provider.getTools. rewrite Hflag. split; reflexivity.
  - intros Hflag Hnd.
    assert (Provider.getTools s = tools (provider s)) as Heq.
    { unfold Provider.getTools. rewrite Hflag. cbn [negb].
      now rewrite (CatalogFacts.copy_entries _ [] Hnd). }
    rewrite Heq. split; [|reflexivity].
    cbn [Routes.payload field JS.assoc String.eqb Ascii.eqb Bool.eqb].
    unfold Routes.count_json, Provider.getToolNames. now rewrite !length_map.
Qed.

Lemma status_and_tools_routes_witness :
  let s := Provider.set_initialized false
             (state_after Provider.initialize (boot (sample_world [refusal; refusal]))) in
  exists st tl,
    Routes.status s = (Ret st, s)
    /\ Routes.tools_route s = (Ret tl, s)
    /\ field "toolCount" (Routes.payload st) = JNum 2
    /\ field "count" (Routes.payload tl) = JNum 0.
Proof.
  intros s.
  destruct (status_and_tools_routes s)
    as (st & tl & Hst & Htl & _ & _ & _ & _ & Hcount & Hdown & _).
  exists st, tl. split; [exact Hst|]. split; [exact Htl|].
  split; [exact Hcount|]. apply Hdown. reflexivity.
Defined.

(** X19: the table of the source.  With [DEFAULT_MCP_CONNECTIONS] built
    when [MCP_ENABLED] had the value [at_load], MCP counts as enabled only
    if the variable was not ['false'] then and is not ['false'] now:
    turning it on later does not enable a connection that was built
    disabled.  [getEnabledMcpConnections] gives the one connection
    ['you_mcp'] or nothing; [getMcpConnection] finds ['you_mcp'] whether
    it is enabled or not, and finds no other name. *)
Theorem default_table (at_load : option string) (s : State) :
  connections (world s) = DEFAULT_MCP_CONNECTIONS at_load ->
  result_of isMcpEnabled s
  = Ret (env_not_false at_load && env_not_false (MCP_ENABLED (world s)))
  /\ result_of getEnabledMcpConnections s
     = Ret (if env_not_false at_load then DEFAULT_MCP_CONNECTIONS at_load else [])
  /\ (exists conn, result_of (getMcpConnection "you_mcp") s = Ret (Some conn)
                   /\ conn_name conn = "you_mcp"
                   /\ conn_enabled conn = env_not_false at_load)
  /\ (forall wanted, wanted <> "you_mcp" ->
        result_of (getMcpConnection wanted) s = Ret None).
Proof.
  intros Htable.
  unfold result_of, isMcpEnabled, getEnabledMcpConnections, getMcpConnection, gets.
  cbn [fst]. rewrite Htable. unfold DEFAULT_MCP_CONNECTIONS.
  cbn [List.filter conn_enabled List.find conn_name].
  split; [|split; [|split]].
  - destruct (env_not_false at_load), (env_not_false (MCP_ENABLED (world s))); reflexivity.
  - destruct (env_not_false at_load); reflexivity.
  - eexists. split; [reflexivity|]. split; reflexivity.
  - intros wanted Hne. apply not_eq_sym, String.eqb_neq in Hne. now rewrite Hne.
Qed.

Lemma default_table_witness :
  let s := boot {| clock := 1700000000000; network := []; sent := [];
                   MCP_ENABLED := Some "true";
                   connections := DEFAULT_MCP_CONNECTIONS (Some "false");
                   token := "dapi-example";
                   hostUrl := "https://example.cloud.databricks.com" |} in
  result_of isMcpEnabled s = Ret false
  /\ result_of getEnabledMcpConnections s = Ret [].
Proof.
  intros s. destruct (default_table (Some "false") s eq_refl) as (H1 & H2 & _).
  split; [exact H1|exact H2].
Defined.

(** X20: with MCP disabled the server has nothing to offer and asks for
    nothing.  Started in a world where [isMcpEnabled()] is false and
    refreshed afterwards, the process sends no request, consumes no
    answer, and holds no tool, and [/status] reports [enabled: false],
    no tools and [toolCount: 0]. *)
Theorem disabled_server_is_empty (w : World) :
  enabled_in w = false ->
  let started := state_after Provider.initialize (boot w) in
  let refreshed := state_after Provider.refresh started in
  world started = w /\ world refreshed = w
  /\ Provider.getToolNames started = [] /\ Provider.getToolNames refreshed = []
  /\ Provider.getTools refreshed = []
  /\ exists st,
       Routes.status refreshed = (Ret st, refreshed)
       /\ Routes.code st = 200%N
       /\ field "enabled" (Routes.payload st) = JBool false
       /\ field "tools" (Routes.payload st) = JArr []
       /\ field "toolCount" (Routes.payload st) = JNum 0.
Proof.
  intros Hen started refreshed.
  assert (started = {| provider := {| tools := []; initialized := true |};
                       client := {| cachedTools := ∅; toolCacheExpiry := ∅ |};
                       world := w |}) as Hstarted.
  { unfold started, state_after, boot.
    now rewrite LifecycleFacts.initialize_disabled_run. }
  assert (refreshed = started) as Hrefreshed.
  { unfold refreshed, state_after. rewrite Hstarted.
    change (Provider.refresh ?s)
      with (Provider.initialize
              {| provider := {| tools := tools (provider s); initialized := false |};
                 client := {| cachedTools := ∅; toolCacheExpiry := ∅ |};
                 world := world s |}).
    cbn [provider tools world].
    now rewrite LifecycleFacts.initialize_disabled_run. }
  rewrite Hrefreshed, Hstarted.
  repeat (split; [reflexivity|]).
  unfold Routes.status, try_catch, bind, gets, ret, isMcpEnabled, getEnabledMcpConnections.
  cbn [fst snd world provider]. eexists. split; [reflexivity|].
  split; [reflexivity|]. split; [|split; reflexivity].
  cbn [Routes.payload field JS.assoc String.eqb Ascii.eqb Bool.eqb world provider client].
  unfold enabled_in in Hen. now rewrite Hen.
Qed.

Lemma disabled_server_is_empty_witness :
  let w := {| clock := 1700000000000;
              network := [answer (JArr [JObj [("name", JStr "web_search")]])];
              sent := [];
              MCP_ENABLED := Some "false";
              connections := DEFAULT_MCP_CONNECTIONS (Some "false");
              token := "dapi-example";
              hostUrl := "https://example.cloud.databricks.com" |} in
  world (state_after Provider.refresh (state_after Provider.initialize (boot w))) = w
  /\ Provider.getToolNames
       (state_after Provider.refresh (state_after Provider.initialize (boot w))) = [].
Proof.
  intros w. destruct (disabled_server_is_empty w eq_refl) as (_ & H1 & _ & H2 & _).
  split; [exact H1|exact H2].
Defined.

Module TameFacts.
Import Translator TranslatorFacts.

#[local] Arguments convertJsonSchemaProperty_fuel : simpl never.
#[local] Arguments depth : simpl never.

Lemma tame_field k fields v :
  tame (JObj fields) = true -> JS.assoc k fields = Some v -> tame v = true.
Proof.
  cbn [tame]. intros [_ H]%andb_true_iff. revert H.
  induction fields as [|[k' v'] r IH]; simpl; [discriminate|].
  intros [Hv Hr]%andb_true_iff. destruct (String.eqb k k'); [now intros [= <-]|auto].
Qed.

Lemma tame_In_fields fields kv :
  tame (JObj fields) = true -> In kv fields -> tame (snd kv) = true.
Proof.
  cbn [tame]. intros [_ H]%andb_true_iff. revert H.
  induction fields as [|[k' v'] r IH]; simpl; [tauto|].
  intros [Hv Hr]%andb_true_iff [<-|Hin]; [assumption|auto].
Qed.

Lemma tame_entries props kv :
  tame props = true -> In kv (JS.entries props) -> tame (snd kv) = true.
Proof.
  intros Ht Hin. destruct props; simpl in Hin; try tauto.
  - apply In_indexed in Hin. clear -Hin. induction s as [|c r IH]; simpl in Hin; [tauto|].
    destruct Hin as [<-|Hin]; [reflexivity|auto].
  - apply In_indexed in Hin. cbn [tame] in Ht. rewrite forallb_forall in Ht. auto.
  - eapply tame_In_fields; eassumption.
Qed.

Lemma mark_optional_returns required :
  (forall k, exists b, JS.includes required k = Ret b) ->
  forall todo shape, exists shape', mark_optional required todo shape = Ret shape'.
Proof.
  intros Hinc. induction todo as [|key rest IH]; simpl; intros shape; [eauto|].
  destruct (Hinc key) as [b ->]. simpl. apply IH.
Qed.

Lemma includes_returns r k :
  includes_defined r = true -> exists b, JS.includes (JS.or r (JArr [])) k = Ret b.
Proof.
  unfold JS.or, includes_defined.
  destruct r as [| |b|z|str|elems|fields]; cbn [JS.truthy negb]; intros H;
    try discriminate H; try (eexists; reflexivity).
  - apply negb_true_iff in H. subst b. eexists; reflexivity.
  - apply negb_true_iff in H. rewrite H. eexists; reflexivity.
  - destruct (negb (String.eqb str EmptyString)); eexists; reflexivity.
Qed.

Lemma jsonSchemaToZod_with_returns f j :
  tame j = true ->
  (forall v, (depth v < depth j)%nat -> tame v = true -> exists z, f v = Ret z) ->
  exists z, jsonSchemaToZod_with f j = Ret z.
Proof.
  intros Ht Hf. unfold jsonSchemaToZod_with.
  destruct j as [| |b|z|str|elems|fields]; cbn [JS.truthy negb orb]; eauto.
  1-4: match goal with |- context [if ?c then _ else _] => destruct c end; simpl; eauto.
  match goal with |- context [if ?c then _ else _] => destruct c end; [eauto|]. simpl.
  destruct (JS.is_str _ "object"); simpl; [|eauto].
  destruct (JS.assoc "properties" fields) as [props|] eqn:Hp; simpl; [|eauto].
  destruct (JS.truthy props); [|eauto].
  destruct (TranslateFacts.build_shape_total f (JS.entries props) []) as [shape ->].
  { intros kv Hin. apply Hf.
    - eapply (depth_entries_of_field "properties"); eassumption.
    - eapply tame_entries; [|eassumption]. eapply tame_field; eassumption. }
  simpl.
  destruct (mark_optional_returns
              (JS.or (match JS.assoc "required" fields with
                      | Some x => x | None => JUndefined end) (JArr []))) with
    (todo := map fst shape) (shape := shape) as [shape' ->].
  { intros k. apply includes_returns. cbn [tame] in Ht.
    now apply andb_true_iff in Ht as [Hr _]. }
  simpl. eauto.
Qed.

Lemma convertJsonSchemaProperty_returns prop :
  tame prop = true -> exists z, convertJsonSchemaProperty prop = Ret z.
Proof.
  unfold convertJsonSchemaProperty.
  assert (forall n p, (depth p < n)%nat -> tame p = true ->
            exists z, convertJsonSchemaProperty_fuel n p = Ret z) as H.
  2:{ apply H. lia. }
  clear prop. induction n as [|n IH]; intros p Hn Ht; [lia|]. rewrite fuel_step.
  destruct (negb (JS.truthy p)) eqn:Htr; [eauto|].
  destruct p as [| |b|z|str|elems|fields]; simpl; eauto; try discriminate Htr.
  set (ty := match JS.assoc "type" fields with Some x => x | None => JUndefined end).
  destruct (negb (JS.truthy ty)); [eauto|].
  repeat (match goal with |- context [if JS.is_str ty ?s then _ else _] =>
            destruct (JS.is_str ty s); [solve [eauto]|] end).
  destruct (JS.is_str ty "array").
  { destruct (JS.assoc "items" fields) as [items|] eqn:Hi; simpl; [|eauto].
    destruct (JS.truthy items); [|eauto].
    destruct (IH items) as [z ->];
      [apply depth_field in Hi; lia|eapply tame_field; eassumption|].
    simpl. eauto. }
  destruct (JS.is_str ty "object"); [|eauto].
  apply jsonSchemaToZod_with_returns; [assumption|].
  intros v Hv Htv. apply IH; [lia|assumption].
Qed.

End TameFacts.

(** X21: the schema translator returns on every descriptor in which no
    [required], at any depth, is a truthy value other than an array or a
    string.  In particular it returns, whatever else the descriptor
    holds, when every [required] is an array or absent; and then so does
    the conversion of a tool with a name that is a string. *)
Theorem translator_returns_on_tame (descriptor : jsval) :
  tame descriptor = true ->
  (exists z, Translator.jsonSchemaToZod descriptor = Ret z)
  /\ (exists z, Translator.convertJsonSchemaProperty descriptor = Ret z)
  /\ (forall connection toolName,
        exists t,
          Client.convertToAiSdkTool
            (JObj [("name", JStr toolName); ("inputSchema", descriptor)]) connection
          = Ret t).
Proof.
  intros Ht.
  assert (forall d, tame d = true -> exists z, Translator.jsonSchemaToZod d = Ret z) as Hj.
  { intros d Hd. apply TameFacts.jsonSchemaToZod_with_returns; [assumption|].
    intros v _ Hv. now apply TameFacts.convertJsonSchemaProperty_returns. }
  split; [now apply Hj|]. split; [now apply TameFacts.convertJsonSchemaProperty_returns|].
  intros connection toolName. unfold Client.convertToAiSdkTool.
  cbn [JS.get JS.assoc String.eqb Ascii.eqb Bool.eqb obind].
  destruct (Hj (JS.or descriptor (JObj []))) as [z ->].
  { unfold JS.or. now destruct (JS.truthy descriptor). }
  cbn [obind JS.toString]. eauto.
Qed.

Lemma translator_returns_on_tame_witness :
  exists z,
    Translator.jsonSchemaToZod
      (JObj [("type", JStr "object");
             ("properties",
              JObj [("filters", JObj [("type", JStr "array");
                                      ("items", JObj [("type", JStr "object");
                                                      ("properties", JStr "oops");
                                                      ("required", JNull)])]);
                    ("when", JObj [("type", JStr "date-time"); ("format", JNum 7)])]);
             ("required", JArr [JNum 1; JStr "when"])])
    = Ret z.
Proof.
  apply translator_returns_on_tame. reflexivity.
Defined.

(** X22: a discovery that got as far as the cache, or was served from
    it, can be repeated at no cost: asked again right away, [listTools]
    is served from the entry, sends nothing and changes nothing.  What it
    returns then is the entry, which is also what the first call returned
    when that one was served from the cache or could write the count of
    the tools to its log.  When it could not, the two calls differ: the
    first returned the empty array, the second returns the entry. *)
Theorem listTools_again (connectionName : string) (s : State) :
  cache_hit connectionName s = true \/ discovery_aborts (network (world s)) = false ->
  let s' := state_after (Client.listTools connectionName) s in
  exists stored,
    cachedTools (client s') !! connectionName = Some stored
    /\ Client.listTools connectionName s' = (Ret stored, s')
    /\ (cache_hit connectionName s = true \/ countable stored = true ->
        result_of (Client.listTools connectionName) s = Ret stored)
    /\ (cache_hit connectionName s = false -> countable stored = false ->
        result_of (Client.listTools connectionName) s = Ret (JArr [])
        /\ stored <> JArr []).
Proof.
  unfold state_after, result_of. intros Hcase.
  destruct (cache_hit connectionName s) eqn:Hhit.
  - destruct (DiscoveryFacts.cache_hit_cached _ _ Hhit) as (c & e & Hc & _).
    rewrite (DiscoveryFacts.listTools_hit _ _ _ Hhit Hc). cbn [fst snd].
    exists c. split; [assumption|].
    split; [now apply DiscoveryFacts.listTools_hit|].
    split; [reflexivity|discriminate].
  - destruct Hcase as [Hc|Ha]; [discriminate|].
    destruct (DiscoveryFacts.listTools_miss _ _ Hhit) as (v & c & -> & _ & _ & Hstore).
    destruct (Hstore Ha) as (stored & Hv & -> & -> & _). cbn [fst snd].
    exists stored. split; [cbn [client cachedTools]; apply lookup_insert_eq|].
    split; [|split].
    + apply DiscoveryFacts.listTools_hit.
      * unfold cache_hit, Client.cache_is_fresh.
        cbn [client cachedTools toolCacheExpiry world].
        rewrite !lookup_insert_eq. rewrite Hv. cbn [andb].
        apply andb_true_iff. split.
        -- apply negb_true_iff, N.eqb_neq. unfold Client.CACHE_DURATION. lia.
        -- apply N.ltb_lt. unfold Client.CACHE_DURATION. lia.
      * cbn [client cachedTools]. apply lookup_insert_eq.
    + intros [Hc| ->]; [discriminate|reflexivity].
    + intros _ Hodd. rewrite Hodd. split; [reflexivity|].
      intros ->. discriminate Hodd.
Qed.

(** A registry whose [tools] is an object with a [length] that has no
    string form: the first discovery returns the empty array, the second
    the object. *)
Lemma listTools_again_witness :
  let odd := JObj [("length", JObj [("toString", JNum 1)])] in
  let s := boot (sample_world [answer (JObj [("tools", odd)])]) in
  let s' := state_after (Client.listTools "you_mcp") s in
  result_of (Client.listTools "you_mcp") s = Ret (JArr [])
  /\ Client.listTools "you_mcp" s' = (Ret odd, s').
Proof.
  intros odd s s'.
  destruct (listTools_again "you_mcp" s (or_intror eq_refl))
    as (stored & Hc & Hrun & _ & Hodd).
  assert (stored = odd) as ->.
  { assert (cachedTools (client s') !! "you_mcp" = Some odd) as Hc' by reflexivity.
    fold s' in Hc. rewrite Hc' in Hc. now injection Hc. }
  split; [apply Hodd; reflexivity|exact Hrun].
Defined.
